(** * check_commits.py: the per-revision validation pipeline

    A shallow embedding of [src/check_commits.py] (a Python 2 script) and
    the properties of its control flow: revision order, the exit-on-error
    policy, fatal conditions and scratch-directory cleanup.

    The script only sequences external commands, so the model is a small
    monad over an abstract operating system: a computation takes the state
    of the outside world and yields the events it performed, the new world
    and either a value or the Python exception it raised.

    Left out of the model: opening [/dev/null] and flushing stdout (taken
    to succeed, without an event), the text a child writes to a stream
    that is not captured, and the checks [optparse] makes on the command
    line ([main] starts from the parsed [(opts, args)]). *)

From Stdlib Require Import String Ascii List ZArith Bool Arith Lia.
Import ListNotations.
Local Open Scope string_scope.
Local Open Scope list_scope.

(** String concatenation, kept apart from list append. *)
Infix "+++" := String.append (right associativity, at level 60).

(** ** Python values and strings *)

(** The values the script handles: [None], integers, strings and objects
    the model does not look into (modules, functions, files). *)
Inductive pyval : Type :=
| PyNone
| PyInt (n : Z)
| PyStr (s : string)
| PyObj (repr : string).

(** The exceptions the script can see.  [CalledProcessError.output] is
    [None] when raised by [subprocess.check_call]. *)
Inductive exn : Type :=
| SystemExit (code : Z)
| CalledProcessError (returncode : Z) (output : pyval)
| OSError (errno : Z) (strerror : string)
| TypeError (msg : string)
| NameError (name : string)
| AttributeError (attr : string).

(** Characters that string literals cannot hold directly. *)
Definition nl_char : ascii := ascii_of_nat 10.
Definition nl : string := String nl_char EmptyString.
Definition dq : string := String (ascii_of_nat 34) EmptyString.

(** [errno.ENOENT]. *)
Definition ENOENT : Z := 2.

(** [left + right] where [left] is a [str]: concatenation when [right] is
    a [str] too, [TypeError] otherwise. *)
Definition str_add (left : string) (right : pyval) : exn + string :=
  match right with
  | PyStr s => inr (left +++ s)
  | PyNone => inl (TypeError "cannot concatenate 'str' and 'NoneType' objects")
  | PyInt _ => inl (TypeError "cannot concatenate 'str' and 'int' objects")
  | PyObj _ => inl (TypeError "cannot concatenate 'str' and 'instance' objects")
  end.

(** [e.strerror]: only [OSError] (an [EnvironmentError]) has the attribute. *)
Definition get_strerror (e : exn) : exn + pyval :=
  match e with
  | OSError _ msg => inr (PyStr msg)
  | _ => inl (AttributeError "strerror")
  end.

(** [sep.join(parts)]. *)
Definition join (sep : string) (parts : list string) : string :=
  String.concat sep parts.

(** Python's whitespace class for byte strings: space, [\t], [\n], [\v],
    [\f], [\r].  It is the class of [\s] and of [str.rstrip()]. *)
Definition is_space (c : ascii) : bool :=
  let n := nat_of_ascii c in
  ((n =? 32) || ((9 <=? n) && (n <=? 13)))%nat.

Definition is_newline (c : ascii) : bool := Ascii.eqb c nl_char.

Fixpoint string_rev_onto (s acc : string) : string :=
  match s with
  | EmptyString => acc
  | String c s' => string_rev_onto s' (String c acc)
  end.

Fixpoint drop_spaces (s : string) : string :=
  match s with
  | EmptyString => EmptyString
  | String c s' => if is_space c then drop_spaces s' else s
  end.

(** [s.rstrip()]. *)
Definition rstrip (s : string) : string :=
  string_rev_onto (drop_spaces (string_rev_onto s EmptyString)) EmptyString.

(** ** The regular expression of [get_commit_list]

    [re.findall(pattern, out, re.MULTILINE)], where the pattern is, token
    by token: [^], the group [hash] = [\S+], [\s], the group [sub] = any
    characters but the newline, as many as possible, and [$]. *)

(** The longest prefix of [s] whose characters satisfy [p], and the rest:
    a greedy [p*]. *)
Fixpoint span (p : ascii -> bool) (s : string) : string * string :=
  match s with
  | EmptyString => (EmptyString, EmptyString)
  | String c s' =>
      if p c then let (a, b) := span p s' in (String c a, b)
      else (EmptyString, s)
  end.

(** One match attempt at a position where [^] holds.  [\S+] takes the
    whole run of non-blanks (a shorter run is followed by a non-blank, so
    backtracking cannot help), [\s] takes one blank, which may be the
    newline, [.*] runs to the end of the line and [$] holds there.  The
    result is the two groups, whether [^] holds where the match ends
    (the character before is a newline) and the text left. *)
Definition match_here (s : string) : option (string * string * bool * string) :=
  match span (fun c => negb (is_space c)) s with
  | (String h0 h, String c r) =>
      let (sub, rest) := span (fun c => negb (is_newline c)) r in
      let bol := match sub with
                 | EmptyString => is_newline c
                 | _ => false
                 end in
      Some (String h0 h, sub, bol, rest)
  | _ => None
  end.

(** The scan of [findall]: try a match at the current position; after a
    match resume where it ended, otherwise move on by one character.
    [bol] says whether [^] holds at the current position.  Every step
    consumes a character, so [S (length s)] steps of fuel suffice
    (lemma [findall_aux_fuel]). *)
Fixpoint findall_aux (fuel : nat) (bol : bool) (s : string)
  : list (string * string) :=
  match fuel with
  | O => []
  | S fuel' =>
      match (if bol then match_here s else None) with
      | Some (h, sub, bol', rest) => (h, sub) :: findall_aux fuel' bol' rest
      | None =>
          match s with
          | EmptyString => []
          | String c s' => findall_aux fuel' (is_newline c) s'
          end
      end
  end.

Definition findall (out : string) : list (string * string) :=
  findall_aux (S (String.length out)) true out.

(** What [git log --pretty=format:'%H %s'] prints for a list of
    revisions: one line [hash subject] each, newline-separated. *)
Definition log_line (r : string * string) : string :=
  fst r +++ " " +++ snd r.

Definition render_log (revs : list (string * string)) : string :=
  join nl (map log_line revs).

Fixpoint string_forallb (p : ascii -> bool) (s : string) : bool :=
  match s with
  | EmptyString => true
  | String c s' => p c && string_forallb p s'
  end.

(** A revision as git prints it: a non-empty hash without blanks and a
    one-line subject. *)
Definition wf_rev (r : string * string) : bool :=
  negb (String.eqb (fst r) EmptyString)
  && string_forallb (fun c => negb (is_space c)) (fst r)
  && string_forallb (fun c => negb (is_newline c)) (snd r).


(** ** The operating system and the effect monad *)

(** What [subprocess] learns of a child: it ran and exited with a status
    and its captured output, or it could not be launched. *)
Inductive proc_result : Type :=
| Completed (returncode : Z) (output : string)
| LaunchFail (errno : Z) (strerror : string).

Definition environment : Type := list (string * string).

(** The outside world: its state and the system calls the script makes.
    [spawn argv env] runs a command ([env = None] inherits the process
    environment), [chdir] and [rmtree] return the [OSError] they raise, if
    any, as [(errno, strerror)]. *)
Record OS : Type := {
  world : Type;
  spawn : list string -> option environment -> world -> proc_result * world;
  chdir : string -> world -> option (Z * string) * world;
  mkdtemp : world -> ((Z * string) + string) * world;
  rmtree : string -> world -> option (Z * string) * world;
  environ : world -> environment
}.

(** The observable steps of a run, in order. *)
Inductive event : Type :=
| Out (text : string)
| Err (text : string)
| Spawned (argv : list string) (res : proc_result)
| Chdir (dir : string) (res : option (Z * string))
| Mkdtemp (res : (Z * string) + string)
| Rmtree (dir : string) (res : option (Z * string)).

Record outcome (W A : Type) : Type := Outcome {
  trace : list event;
  after : W;
  result : exn + A
}.
Arguments Outcome {W A} _ _ _.
Arguments trace {W A} _.
Arguments after {W A} _.
Arguments result {W A} _.

(** The exit status of the interpreter: [0] after a normal return, the
    code of [sys.exit], and [1] after any other uncaught exception. *)
Definition exit_status {A : Type} (r : exn + A) : Z :=
  match r with
  | inr _ => 0
  | inl (SystemExit code) => code
  | inl _ => 1
  end.

Section Effects.
Context {os : OS}.

Definition M (A : Type) : Type := world os -> outcome (world os) A.

Definition ret {A} (a : A) : M A := fun w => Outcome [] w (inr a).

Definition raise {A} (e : exn) : M A := fun w => Outcome [] w (inl e).

Definition bind {A B} (m : M A) (f : A -> M B) : M B :=
  fun w =>
    match m w with
    | Outcome t w1 (inl e) => Outcome t w1 (inl e)
    | Outcome t w1 (inr a) =>
        match f a w1 with
        | Outcome t' w2 r => Outcome (t ++ t') w2 r
        end
    end.

(** A pure step that may raise. *)
Definition lift {A} (r : exn + A) : M A :=
  fun w => Outcome [] w r.

(** [try: body / except ...: handler / else: orelse].  [handler e] is
    [None] when no [except] clause matches [e]; exceptions raised by a
    handler or by [orelse] are not caught here. *)
Definition try_except_else {A B} (body : M A)
    (handler : exn -> option (M B)) (orelse : A -> M B) : M B :=
  fun w =>
    match body w with
    | Outcome t w1 (inr a) =>
        match orelse a w1 with
        | Outcome t' w2 r => Outcome (t ++ t') w2 r
        end
    | Outcome t w1 (inl e) =>
        match handler e with
        | None => Outcome t w1 (inl e)
        | Some h =>
            match h w1 with
            | Outcome t' w2 r => Outcome (t ++ t') w2 r
            end
        end
    end.

(** [try: body / finally: cleanup]: the cleanup always runs; when it
    raises, its exception replaces the outcome of the body. *)
Definition try_finally {A} (body : M A) (cleanup : M unit) : M A :=
  fun w =>
    match body w with
    | Outcome t w1 r =>
        match cleanup w1 with
        | Outcome t' w2 (inl e) => Outcome (t ++ t') w2 (inl e)
        | Outcome t' w2 (inr _) => Outcome (t ++ t') w2 r
        end
    end.

Definition stdout_write (text : string) : M unit :=
  fun w => Outcome [Out text] w (inr tt).

Definition stderr_write (text : string) : M unit :=
  fun w => Outcome [Err text] w (inr tt).

(** [sys.exit(code)]. *)
Definition sys_exit {A} (code : Z) : M A := raise (SystemExit code).

(** [subprocess.check_output(argv, env=env, stderr=...)]. *)
Definition check_output (argv : list string) (env : option environment)
  : M string :=
  fun w =>
    let (res, w') := spawn os argv env w in
    Outcome [Spawned argv res] w'
      (match res with
       | Completed rc out =>
           if (rc =? 0)%Z then inr out
           else inl (CalledProcessError rc (PyStr out))
       | LaunchFail errno msg => inl (OSError errno msg)
       end).

(** [subprocess.check_call(argv, stdout=fnull, stderr=fnull)]. *)
Definition check_call (argv : list string) : M unit :=
  fun w =>
    let (res, w') := spawn os argv None w in
    Outcome [Spawned argv res] w'
      (match res with
       | Completed rc _ =>
           if (rc =? 0)%Z then inr tt
           else inl (CalledProcessError rc PyNone)
       | LaunchFail errno msg => inl (OSError errno msg)
       end).

Definition os_chdir (dir : string) : M unit :=
  fun w =>
    let (res, w') := chdir os dir w in
    Outcome [Chdir dir res] w'
      (match res with
       | None => inr tt
       | Some (errno, msg) => inl (OSError errno msg)
       end).

Definition tempfile_mkdtemp : M string :=
  fun w =>
    let (res, w') := mkdtemp os w in
    Outcome [Mkdtemp res] w'
      (match res with
       | inr dir => inr dir
       | inl (errno, msg) => inl (OSError errno msg)
       end).

Definition shutil_rmtree (dir : string) : M unit :=
  fun w =>
    let (res, w') := rmtree os dir w in
    Outcome [Rmtree dir res] w'
      (match res with
       | None => inr tt
       | Some (errno, msg) => inl (OSError errno msg)
       end).

(** [os.environ.copy()]. *)
Definition os_environ_copy : M environment :=
  fun w => Outcome [] w (inr (environ os w)).

(** Reading a variable: [NameError] when no scope binds it. *)
Definition lookup_name (scope : list (string * pyval)) (name : string)
  : M pyval :=
  match find (fun b => String.eqb (fst b) name) scope with
  | Some b => ret (snd b)
  | None => raise (NameError name)
  end.
End Effects.

Arguments M : clear implicits.

Declare Scope py_scope.
Delimit Scope py_scope with py.
Notation "x <- m ;; k" := (bind m (fun x => k))
  (at level 61, m at next level, right associativity) : py_scope.
Notation "m ;; k" := (bind m (fun _ => k))
  (at level 61, right associativity) : py_scope.
Local Open Scope py_scope.

(** ** Options *)

(** The [opts] object of [optparse].  Choice options keep the strings the
    script compares them with; [num_jobs] is whatever was stored. *)
Record options : Type := {
  repo_dir : string;
  num_jobs : pyval;
  exit_on_err : bool;
  skip_builds : bool;
  build_type : string;
  use_gcc : string;
  use_clang : string;
  run_checkgitlog : string;
  run_checkpatch : string
}.

(** [parser.set_defaults(...)]; [cwd] is [os.getcwd()]. *)
Definition default_opts (cwd : string) : options := {|
  repo_dir := cwd;
  num_jobs := PyInt 1;
  exit_on_err := false;
  skip_builds := false;
  build_type := "full";
  use_gcc := "yes";
  use_clang := "no";
  run_checkgitlog := "yes";
  run_checkpatch := "yes"
|}.

Inductive build_choice : Type := full | short | skip.
Inductive yes_no : Type := yes | no.

Definition build_choice_str (c : build_choice) : string :=
  match c with full => "full" | short => "short" | skip => "skip" end.

Definition yes_no_str (c : yes_no) : string :=
  match c with yes => "yes" | no => "no" end.

(** An option given on the command line, as [parser.add_option] declares
    them.  [action='store'] without a type stores the argument as a
    string; a choice option accepts only its choices. *)
Inductive cli_option : Type :=
| OptRepoDir (dir : string)
| OptNumJobs (n : string)
| OptExitOnErr
| OptBuildType (c : build_choice)
| OptUseGcc (c : yes_no)
| OptUseClang (c : yes_no)
| OptRunCheckgitlog (c : yes_no)
| OptRunCheckpatch (c : yes_no).

Definition store (o : options) (given : cli_option) : options :=
  match given with
  | OptRepoDir dir =>
      {| repo_dir := dir; num_jobs := num_jobs o;
         exit_on_err := exit_on_err o; skip_builds := skip_builds o;
         build_type := build_type o; use_gcc := use_gcc o;
         use_clang := use_clang o; run_checkgitlog := run_checkgitlog o;
         run_checkpatch := run_checkpatch o |}
  | OptNumJobs n =>
      {| repo_dir := repo_dir o; num_jobs := PyStr n;
         exit_on_err := exit_on_err o; skip_builds := skip_builds o;
         build_type := build_type o; use_gcc := use_gcc o;
         use_clang := use_clang o; run_checkgitlog := run_checkgitlog o;
         run_checkpatch := run_checkpatch o |}
  | OptExitOnErr =>
      {| repo_dir := repo_dir o; num_jobs := num_jobs o;
         exit_on_err := true; skip_builds := skip_builds o;
         build_type := build_type o; use_gcc := use_gcc o;
         use_clang := use_clang o; run_checkgitlog := run_checkgitlog o;
         run_checkpatch := run_checkpatch o |}
  | OptBuildType c =>
      {| repo_dir := repo_dir o; num_jobs := num_jobs o;
         exit_on_err := exit_on_err o; skip_builds := skip_builds o;
         build_type := build_choice_str c; use_gcc := use_gcc o;
         use_clang := use_clang o; run_checkgitlog := run_checkgitlog o;
         run_checkpatch := run_checkpatch o |}
  | OptUseGcc c =>
      {| repo_dir := repo_dir o; num_jobs := num_jobs o;
         exit_on_err := exit_on_err o; skip_builds := skip_builds o;
         build_type := build_type o; use_gcc := yes_no_str c;
         use_clang := use_clang o; run_checkgitlog := run_checkgitlog o;
         run_checkpatch := run_checkpatch o |}
  | OptUseClang c =>
      {| repo_dir := repo_dir o; num_jobs := num_jobs o;
         exit_on_err := exit_on_err o; skip_builds := skip_builds o;
         build_type := build_type o; use_gcc := use_gcc o;
         use_clang := yes_no_str c; run_checkgitlog := run_checkgitlog o;
         run_checkpatch := run_checkpatch o |}
  | OptRunCheckgitlog c =>
      {| repo_dir := repo_dir o; num_jobs := num_jobs o;
         exit_on_err := exit_on_err o; skip_builds := skip_builds o;
         build_type := build_type o; use_gcc := use_gcc o;
         use_clang := use_clang o; run_checkgitlog := yes_no_str c;
         run_checkpatch := run_checkpatch o |}
  | OptRunCheckpatch c =>
      {| repo_dir := repo_dir o; num_jobs := num_jobs o;
         exit_on_err := exit_on_err o; skip_builds := skip_builds o;
         build_type := build_type o; use_gcc := use_gcc o;
         use_clang := use_clang o; run_checkgitlog := run_checkgitlog o;
         run_checkpatch := yes_no_str c |}
  end.

(** The [opts] that [parser.parse_args()] returns for the options given,
    left to right, over the defaults. *)
Definition parse_args (cwd : string) (given : list cli_option) : options :=
  fold_left store given (default_opts cwd).

Definition is_num_jobs (given : cli_option) : bool :=
  match given with OptNumJobs _ => true | _ => false end.

(** ** Messages *)

Definition running_msg (cmd : list string) : string :=
  "Running: " +++ dq +++ join " " cmd +++ dq +++ "... ".

Definition separator : string :=
  nl +++ "==========================================" +++ nl +++ nl.

(** What [parser.get_usage()] returns: the usage string of [main] after
    [Usage: ], with [%prog] replaced by the name of the script, and a
    newline. *)
Definition usage_text : string :=
  "Usage: " +++ nl
  +++ "$ export DPDK_CHECKPATCH_PATH=<path to checkpatch script>" +++ nl
  +++ "$ check_commits.py [options] <start_ref_not_inclusive> <end_ref_inclusive>"
  +++ nl +++ nl
  +++ "This program runs through a series of checks required by the DPDK upstream"
  +++ nl
  +++ "patch submission process.  If DPDK_CHECKPATCH_PATH is not set, a default"
  +++ nl +++ "location will be used." +++ nl +++ nl.

Definition checkpatch_key : string := "DPDK_CHECKPATCH_PATH".
Definition checkpatch_default : string :=
  "/home/egcarril/src/checkpatch/checkpatch.pl".

(** [key in env]. *)
Definition has_key (key : string) (env : environment) : bool :=
  existsb (fun b => String.eqb (fst b) key) env.

(** ** The script *)

Section Script.
Context {os : OS}.

(** The global [opts], set once by [main] and read by the checks. *)
Variable opts : options.

Definition git_log_cmd (start_ref end_ref : string) : list string :=
  ["git"; "log"; "--pretty=format:%H %s"; start_ref +++ ".." +++ end_ref].

(** The names [get_commit_list] can read inside its handler: its
    locals, then the module's globals.  Neither binds [start] or [end]. *)
Definition get_commit_list_scope (start_ref end_ref : string) (e : exn)
  : list (string * pyval) :=
  [ ("start_ref", PyStr start_ref); ("end_ref", PyStr end_ref);
    ("cmd", PyObj "list"); ("fnull", PyObj "file"); ("e", PyObj "exception");
    ("optparse", PyObj "module"); ("os", PyObj "module");
    ("subprocess", PyObj "module"); ("sys", PyObj "module");
    ("re", PyObj "module"); ("tempfile", PyObj "module");
    ("shutil", PyObj "module"); ("errno", PyObj "module");
    ("get_commit_list", PyObj "function");
    ("check_git_log", PyObj "function");
    ("check_builds", PyObj "function");
    ("run_test_build", PyObj "function");
    ("checkout_commit_with_hash", PyObj "function");
    ("check_patch", PyObj "function"); ("main", PyObj "function");
    ("opts", PyObj "Values") ].

(** Lines 14-29.  The message of the handler reads [start] and [end],
    left to right, before [sys.stderr.write] is called. *)
Definition get_commit_list (start_ref end_ref : string)
  : M os (list (string * string)) :=
  let cmd := git_log_cmd start_ref end_ref in
  out <- try_except_else (check_output cmd None)
           (fun e =>
              match e with
              | CalledProcessError _ _ =>
                  let scope := get_commit_list_scope start_ref end_ref e in
                  Some (
                    v1 <- lookup_name scope "start";;
                    s1 <- lift (str_add
                            ("Error: failed to get list of commits between "
                             +++ dq) v1);;
                    v2 <- lookup_name scope "end";;
                    s2 <- lift (str_add (s1 +++ dq +++ " and " +++ dq) v2);;
                    stderr_write (s2 +++ dq +++ "." +++ nl);;
                    sys_exit 1)
              | _ => None
              end)
           ret;;
  let matches := findall out in
  ret (rev matches).

Definition check_git_log_cmd : list string :=
  ["devtools/check-git-log.sh"; "-1"].

(** Lines 31-48. *)
Definition check_git_log : M os unit :=
  let cmd := check_git_log_cmd in
  stdout_write (running_msg cmd);;
  try_except_else (check_output cmd None)
    (fun e =>
       match e with
       | CalledProcessError _ output =>
           Some (
             stdout_write ("Fail." +++ nl);;
             s <- lift (str_add "Output:" output);;
             stderr_write (s +++ nl);;
             if exit_on_err opts then sys_exit 1 else ret tt)
       | OSError _ _ =>
           Some (
             stdout_write nl;;
             stderr_write
               ("Error: Couldn't run check-git-log.sh. Are you in "
                +++ "the root dir of the repo?" +++ nl);;
             sys_exit 1)
       | _ => None
       end)
    (fun _ => stdout_write ("Passed." +++ nl)).

(** The command line of one build, once [-j] has been put together. *)
Definition test_build_cmd (build_type arch_str j : string) : list string :=
  let cmd := ["devtools/test-build.sh"; j] in
  let cmd := if String.eqb build_type "short" then cmd ++ ["-s"] else cmd in
  cmd ++ [arch_str].

(** Lines 57-72. *)
Definition run_test_build (build_type arch_str : string) (num_jobs : pyval)
  : M os unit :=
  j <- lift (str_add "-j" num_jobs);;
  let cmd := test_build_cmd build_type arch_str j in
  stdout_write (running_msg cmd);;
  try_except_else (check_output cmd None)
    (fun e =>
       match e with
       | CalledProcessError _ output =>
           Some (
             stdout_write ("Failed." +++ nl);;
             s <- lift (str_add ("Output:" +++ nl) output);;
             stderr_write (s +++ nl);;
             if exit_on_err opts then sys_exit 1 else ret tt)
       | _ => None
       end)
    (fun _ => stdout_write ("Passed." +++ nl)).

Definition arch_of (compiler : string) : string :=
  "x86_64-native-linuxapp-" +++ compiler.

(** Lines 50-55.  The parameter [exit_on_err] is not read: the policy is
    taken from the global [opts] in [run_test_build]. *)
Fixpoint check_builds (compilers : list string) (build_type : string)
    (num_jobs : pyval) (exit_on_err : bool) : M os unit :=
  match compilers with
  | [] => ret tt
  | compiler :: compilers' =>
      let arch_str := arch_of compiler in
      run_test_build build_type arch_str num_jobs;;
      run_test_build build_type (arch_str +++ "+shared") num_jobs;;
      check_builds compilers' build_type num_jobs exit_on_err
  end.

Definition checkout_cmd (h : string) : list string :=
  ["git"; "checkout"; h].

(** Lines 74-82.  The message reads [e.strerror] of the
    [CalledProcessError] before [sys.stderr.write] is called. *)
Definition checkout_commit_with_hash (h : string) : M os unit :=
  let cmd := checkout_cmd h in
  try_except_else (check_call cmd)
    (fun e =>
       match e with
       | CalledProcessError _ _ =>
           Some (
             v <- lift (get_strerror e);;
             s <- lift (str_add
                    ("Error: could not checkout commit with hash "
                     +++ h +++ ": ") v);;
             stderr_write s;;
             sys_exit 1)
       | _ => None
       end)
    ret.

Definition format_patch_cmd (temp_dir : string) : list string :=
  ["git"; "format-patch"; "-o"; temp_dir; "-1"].

Definition check_patch_cmd (temp_file : string) : list string :=
  ["devtools/checkpatches.sh"; temp_file].

(** Lines 106-111: the [finally] clause of [check_patch]. *)
Definition remove_temp_dir (temp_dir : string) : M os unit :=
  try_except_else (shutil_rmtree temp_dir)
    (fun e =>
       match e with
       | OSError errno _ =>
           Some (if (errno =? ENOENT)%Z then ret tt else raise e)
       | _ => None
       end)
    ret.

(** Lines 91-105: the [try] statement of [check_patch] without its
    [finally] clause. *)
Definition check_patch_checks (temp_dir : string) (child_env : environment)
  : M os unit :=
  let format_patch_cmd := format_patch_cmd temp_dir in
  try_except_else
    (out <- check_output format_patch_cmd None;;
     let temp_file := rstrip out in
     let check_patch_cmd := check_patch_cmd temp_file in
     stdout_write (running_msg check_patch_cmd);;
     check_output check_patch_cmd (Some child_env))
    (fun e =>
       match e with
       | CalledProcessError _ output =>
           Some (
             stdout_write ("Failed." +++ nl);;
             s <- lift (str_add ("Output:" +++ nl) output);;
             stderr_write (s +++ nl);;
             if exit_on_err opts then sys_exit 1 else ret tt)
       | _ => None
       end)
    (fun _ => stdout_write ("Passed." +++ nl)).

(** Lines 87-90: the environment of the checker. *)
Definition child_env_of (env : environment) : environment :=
  if negb (has_key checkpatch_key env)
  then env ++ [(checkpatch_key, checkpatch_default)]
  else env.

(** Lines 84-111. *)
Definition check_patch : M os unit :=
  temp_dir <- tempfile_mkdtemp;;
  child_env <- os_environ_copy;;
  let child_env := child_env_of child_env in
  try_finally (check_patch_checks temp_dir child_env)
              (remove_temp_dir temp_dir).

(** Lines 198-213: the loop of [main] over [enumerate(commit_tuples)],
    from index [i] on. *)
Fixpoint main_loop (compilers : list string) (i : nat)
    (commit_tuples : list (string * string)) : M os unit :=
  match commit_tuples with
  | [] => ret tt
  | c :: rest =>
      (if (0 <? i)%nat then stdout_write separator else ret tt);;
      stdout_write ("Commit: " +++ snd c +++ nl);;
      checkout_commit_with_hash (fst c);;
      (if String.eqb (run_checkgitlog opts) "yes"
       then check_git_log else ret tt);;
      (if negb (String.eqb (build_type opts) "skip")
       then check_builds compilers (build_type opts) (num_jobs opts)
              (exit_on_err opts)
       else ret tt);;
      (if String.eqb (run_checkpatch opts) "yes"
       then check_patch else ret tt);;
      main_loop compilers (S i) rest
  end.

(** Lines 190-194. *)
Definition compilers_of : list string :=
  (if String.eqb (use_gcc opts) "yes" then ["gcc"] else [])
  ++ (if String.eqb (use_clang opts) "yes" then ["clang"] else []).

(** Lines 182-188. *)
Definition enter_repo_dir : M os unit :=
  if String.eqb (repo_dir opts) EmptyString then ret tt
  else
    try_except_else (os_chdir (repo_dir opts))
      (fun e =>
         match e with
         | OSError _ _ =>
             Some (
               v <- lift (get_strerror e);;
               s <- lift (str_add
                      "Error: Could not change to repo directory: " v);;
               stderr_write (s +++ ": " +++ repo_dir opts +++ nl);;
               sys_exit 1)
         | _ => None
         end)
      ret.

(** [parser.print_usage()]: [print] writes the usage to stdout, then a
    newline of its own. *)
Definition print_usage : M os unit :=
  stdout_write usage_text;;
  stdout_write nl.

(** Lines 173-213: [main] from the result [(opts, args)] of
    [parser.parse_args()] on. *)
Definition main (args : list string) : M os unit :=
  match args with
  | start_ref :: end_ref :: _ =>
      enter_repo_dir;;
      let compilers := compilers_of in
      commit_tuples <- get_commit_list start_ref end_ref;;
      main_loop compilers 0 commit_tuples
  | _ =>
      print_usage;;
      sys_exit 1
  end.
End Script.

(** ** Scripted operating systems

    Concrete worlds to run the script on: the state counts the system
    calls made so far and every answer is read off a script. *)

Record script : Type := {
  respond : nat -> list string -> proc_result;
  chdir_answer : option (Z * string);
  mkdtemp_answer : (Z * string) + string;
  rmtree_answer : option (Z * string);
  variables : environment
}.

Definition scripted (s : script) : OS := {|
  world := nat;
  spawn := fun argv _ n => (respond s n argv, S n);
  chdir := fun _ n => (chdir_answer s, S n);
  mkdtemp := fun n => (mkdtemp_answer s, S n);
  rmtree := fun _ n => (rmtree_answer s, S n);
  environ := fun _ => variables s
|}.

(** The program a command line names. *)
Definition program (argv : list string) : string :=
  match argv with
  | "git" :: sub :: _ => "git " +++ sub
  | prog :: _ => prog
  | [] => EmptyString
  end.

Definition three_commits : list (string * string) :=
  [ ("c3c3c3", "net: newest change");
    ("b2b2b2", "doc: middle change");
    ("a1a1a1", "eal: oldest change") ].

(** A healthy repository with three commits in the range, where the
    programs listed in [failing] exit with status 1. *)
Definition repo_script (log : string) (failing : list string) : script := {|
  respond := fun _ argv =>
    if String.eqb (program argv) "git log" then Completed 0 log
    else if existsb (String.eqb (program argv)) failing
         then Completed 1 "it failed"
         else if String.eqb (program argv) "git format-patch"
              then Completed 0 ("/tmp/tmpXYZ/0001-change.patch" +++ nl)
              else Completed 0 "fine";
  chdir_answer := None;
  mkdtemp_answer := inr "/tmp/tmpXYZ";
  rmtree_answer := None;
  variables := [("HOME", "/root")]
|}.

Definition repo_os (failing : list string) : OS :=
  scripted (repo_script (render_log three_commits) failing).

(** A world in which [git log] fails (unknown refs). *)
Definition bad_refs_os : OS :=
  scripted {|
    respond := fun _ argv =>
      if String.eqb (program argv) "git log"
      then Completed 128 "fatal: bad revision"
      else Completed 0 "fine";
    chdir_answer := None;
    mkdtemp_answer := inr "/tmp/tmpXYZ";
    rmtree_answer := None;
    variables := []
  |}.

(** The argument vectors of the commands a trace ran, in order. *)
Definition spawned (t : list event) : list (list string) :=
  flat_map (fun e => match e with Spawned argv _ => [argv] | _ => [] end) t.




(** ** Reading a trace *)

Definition programs (t : list event) : list string := map program (spawned t).

(** The hashes a trace checked out, in order. *)
Definition checkouts (t : list event) : list string :=
  flat_map (fun e =>
              match e with
              | Spawned [g; c; h] _ =>
                  if String.eqb g "git" && String.eqb c "checkout"
                  then [h] else []
              | _ => []
              end) t.

(** The commands of the three check stages: the message-style check, a
    build, and the two commands of the patch-style check. *)
Definition is_check (argv : list string) : bool :=
  let p := program argv in
  String.eqb p "devtools/check-git-log.sh"
  || String.eqb p "devtools/test-build.sh"
  || String.eqb p "git format-patch"
  || String.eqb p "devtools/checkpatches.sh".

Definition is_build (argv : list string) : bool :=
  String.eqb (program argv) "devtools/test-build.sh".

Definition is_spawn (e : event) : bool :=
  match e with Spawned _ _ => true | _ => false end.

(** A check that ran to completion and reported failure. *)
Definition failed_check (e : event) : bool :=
  match e with
  | Spawned argv (Completed rc _) => is_check argv && negb (rc =? 0)%Z
  | _ => false
  end.

(** A command that could not be launched. *)
Definition launch_failed (e : event) : bool :=
  match e with
  | Spawned _ (LaunchFail _ _) => true
  | _ => false
  end.

(** The conditions that are fatal whatever the policy: a command that
    cannot be launched, a failing [git log] or [git checkout], and a
    failing [chdir], [mkdtemp] or (other than [ENOENT]) [rmtree]. *)
Definition fatal (e : event) : bool :=
  match e with
  | Spawned argv (Completed rc _) => negb (is_check argv) && negb (rc =? 0)%Z
  | Spawned _ (LaunchFail _ _) => true
  | Chdir _ (Some _) => true
  | Mkdtemp (inl _) => true
  | Rmtree _ (Some (errno, _)) => negb (errno =? ENOENT)%Z
  | _ => false
  end.

(** An event that ends the run under the policy of [opts]. *)
Definition stopping (opts : options) (e : event) : bool :=
  fatal e || (exit_on_err opts && failed_check e).

(** The two lines printed for a failed check: the verdict on stdout, then
    the captured output on stderr. *)
Definition reported (e : event) (post : list event) : Prop :=
  match e, post with
  | Spawned _ (Completed _ out), Out line :: Err text :: _ =>
      (line = "Fail." +++ nl /\ text = ("Output:" +++ out) +++ nl)
      \/ (line = "Failed." +++ nl
          /\ text = (("Output:" +++ nl) +++ out) +++ nl)
  | _, _ => False
  end.

(** Every failed check of the trace is followed by its report. *)
Fixpoint all_reported (t : list event) : Prop :=
  match t with
  | [] => True
  | e :: t' => (failed_check e = true -> reported e t') /\ all_reported t'
  end.

Definition is_failure_report (e : event) : bool :=
  match e with
  | Out line => String.eqb line ("Fail." +++ nl)
                || String.eqb line ("Failed." +++ nl)
  | _ => false
  end.

(** [halted_by stop after o]: the run [o] either met no event satisfying
    [stop], or it ended abnormally at the first such event [e], with
    [after e post] for the events [post] that still followed. *)
Definition halted_by {W A : Type} (stop : event -> bool)
    (after_stop : event -> list event -> Prop) (o : outcome W A) : Prop :=
  forallb (fun e => negb (stop e)) (trace o) = true
  \/ exists pre e post,
       trace o = pre ++ e :: post
       /\ forallb (fun e => negb (stop e)) pre = true
       /\ stop e = true
       /\ after_stop e post
       /\ exit_status (result o) = 1%Z.

(** After a failed check under exit-on-error: the report, then at most
    the cleanup; no command runs any more. *)
Definition after_failed_check (e : event) (post : list event) : Prop :=
  reported e post /\ spawned post = [].

(** After a launch failure: no command runs any more and no check is
    reported as failed. *)
Definition after_launch_failure (e : event) (post : list event) : Prop :=
  spawned post = [] /\ forallb (fun e => negb (is_failure_report e)) post = true.

(** The build stage can put its command lines together: either [-j] was
    given, or no build is run at all. *)
Definition jobs_usable (opts : options) : Prop :=
  (exists j, num_jobs opts = PyStr j)
  \/ build_type opts = "skip"
  \/ compilers_of opts = [].

(** How many times a trace ran the program [p]. *)
Definition count_program (p : string) (t : list event) : nat :=
  List.length (filter (String.eqb p) (programs t)).

Definition indicator (b : bool) : nat := if b then 1%nat else 0%nat.

(** How many times the stages of one revision run the program [p] when
    nothing stops them ([devtools/checkpatches.sh] apart, which runs only
    when the patch could be generated). *)
Definition per_commit (opts : options) (p : string) : nat :=
  (indicator (String.eqb p "git checkout")
   + (if String.eqb (run_checkgitlog opts) "yes"
      then indicator (String.eqb p "devtools/check-git-log.sh") else 0)
   + (if negb (String.eqb (build_type opts) "skip")
      then List.length (compilers_of opts)
           * (2 * indicator (String.eqb p "devtools/test-build.sh"))
      else 0)
   + (if String.eqb (run_checkpatch opts) "yes"
      then indicator (String.eqb p "git format-patch") else 0))%nat.

(** [runs_through opts p n hs o]: when no event of the run [o] is a
    stopping one, [o] returns normally, having run [p] [n] times and
    checked out the hashes [hs]. *)
Definition runs_through {W A : Type} (opts : options) (p : string) (n : nat)
    (hs : list string) (o : outcome W A) : Prop :=
  forallb (fun e => negb (stopping opts e)) (trace o) = true ->
  (exists a, result o = inr a)
  /\ count_program p (trace o) = n
  /\ checkouts (trace o) = hs.

(** [ordered hs o]: the hashes the run [o] checked out are the first
    ones of [hs], in the order of [hs]; all of [hs] when [o] returned
    normally. *)
Definition ordered {W A : Type} (hs : list string) (o : outcome W A) : Prop :=
  (exists k, checkouts (trace o) = firstn k hs)
  /\ ((exists a, result o = inr a) -> checkouts (trace o) = hs).

Definition is_build_event (e : event) : bool :=
  match e with
  | Spawned argv _ => is_build argv
  | _ => false
  end.

(** [quiet q o]: no event of the run [o] satisfies [q]. *)
Definition quiet {W A : Type} (q : event -> bool) (o : outcome W A) : Prop :=
  forallb (fun e => negb (q e)) (trace o) = true.

(** ** Concrete runs *)

(** [check_commits.py -j 4 v1 v2] in [/repo]. *)
Definition jobs4_opts : options := parse_args "/repo" [OptNumJobs "4"].

(** The same with [-e]. *)
Definition strict_opts : options :=
  parse_args "/repo" [OptNumJobs "4"; OptExitOnErr].

(** [check_commits.py -j 4 --use-clang yes v1 v2]. *)
Definition two_compilers_opts : options :=
  parse_args "/repo" [OptNumJobs "4"; OptUseClang yes].

Definition range_args : list string := ["v1"; "v2"].

(** A repository whose every check fails. *)
Definition failing_checks_os : OS :=
  repo_os ["devtools/check-git-log.sh"; "devtools/test-build.sh";
           "devtools/checkpatches.sh"].

(** A range without commits: [git log] prints nothing. *)
Definition empty_range_os : OS := scripted (repo_script EmptyString []).

(** A checkout of the project without its [devtools/test-build.sh]. *)
Definition broken_tool_os : OS :=
  scripted {|
    respond := fun _ argv =>
      if String.eqb (program argv) "git log"
      then Completed 0 (render_log three_commits)
      else if String.eqb (program argv) "devtools/test-build.sh"
           then LaunchFail 2 "No such file or directory"
           else Completed 0 "fine";
    chdir_answer := None;
    mkdtemp_answer := inr "/tmp/tmpXYZ";
    rmtree_answer := None;
    variables := []
  |}.

(** A repository whose builds fail, checked with [-e]. *)
Definition build_failure_os : OS := repo_os ["devtools/test-build.sh"].

Definition build_failure_run : outcome nat unit :=
  main (os := build_failure_os) strict_opts range_args 0%nat.

(** The run without [devtools/test-build.sh], without [-e]. *)
Definition broken_tool_run : outcome nat unit :=
  main (os := broken_tool_os) jobs4_opts range_args 0%nat.

(** The event at position [n] of a trace. *)
Definition event_at (n : nat) (t : list event) : event :=
  nth n t (Out EmptyString).

(** The run of a repository whose every check fails, without [-e]. *)
Definition failing_checks_run : outcome nat unit :=
  main (os := failing_checks_os) jobs4_opts range_args 0%nat.

(** The targets of the build matrix for gcc and clang. *)
Definition two_compiler_matrix : list string :=
  [ "x86_64-native-linuxapp-gcc"; "x86_64-native-linuxapp-gcc+shared";
    "x86_64-native-linuxapp-clang"; "x86_64-native-linuxapp-clang+shared" ].

(** A repository whose patch-style checker fails. *)
Definition bad_patch_os : OS := repo_os ["devtools/checkpatches.sh"].

(** ** More ways to read a trace *)

Definition is_message_check_event (e : event) : bool :=
  match e with
  | Spawned argv _ => String.eqb (program argv) "devtools/check-git-log.sh"
  | _ => false
  end.

(** The events of the patch-style check: its scratch directory and its
    two commands. *)
Definition is_patch_event (e : event) : bool :=
  match e with
  | Spawned argv _ =>
      String.eqb (program argv) "git format-patch"
      || String.eqb (program argv) "devtools/checkpatches.sh"
  | Mkdtemp _ => true
  | Rmtree _ _ => true
  | _ => false
  end.

(** The statuses with which the script can leave the interpreter. *)
Definition exits_0_or_1 {W A : Type} (o : outcome W A) : Prop :=
  exit_status (result o) = 0%Z \/ exit_status (result o) = 1%Z.

(** [d[key]] of a dictionary held as a list of bindings. *)
Definition env_get (key : string) (env : environment) : option string :=
  match find (fun b => String.eqb (fst b) key) env with
  | Some b => Some (snd b)
  | None => None
  end.

(** ** More concrete worlds *)

(** A world where the repository directory does not exist. *)
Definition missing_dir_os : OS :=
  scripted {|
    respond := fun _ _ => Completed 0 "fine";
    chdir_answer := Some (2%Z, "No such file or directory");
    mkdtemp_answer := inr "/tmp/tmpXYZ";
    rmtree_answer := None;
    variables := []
  |}.

(** A healthy repository on a machine whose temporary directory is full. *)
Definition full_tmp_os : OS :=
  scripted {|
    respond := respond (repo_script (render_log three_commits) []);
    chdir_answer := None;
    mkdtemp_answer := inl (28%Z, "No space left on device");
    rmtree_answer := None;
    variables := []
  |}.

(** A directory that is not the root of the project: no script of
    [devtools/] can be launched. *)
Definition outside_repo_os : OS :=
  scripted {|
    respond := fun _ argv =>
      if String.eqb (program argv) "git log"
      then Completed 0 (render_log three_commits)
      else if String.eqb (substring 0 9 (program argv)) "devtools/"
           then LaunchFail 2 "No such file or directory"
           else Completed 0 "fine";
    chdir_answer := None;
    mkdtemp_answer := inr "/tmp/tmpXYZ";
    rmtree_answer := None;
    variables := []
  |}.

(** [check_commits.py -j 4 --run-checkgitlog no v1 v2] and the like. *)
Definition no_message_opts : options :=
  parse_args "/repo" [OptNumJobs "4"; OptRunCheckgitlog no].

Definition no_patch_opts : options :=
  parse_args "/repo" [OptNumJobs "4"; OptRunCheckpatch no].

Definition no_compiler_opts : options :=
  parse_args "/repo" [OptUseGcc no].

(** A repository whose patch-style checker fails unless it is told,
    through its environment, where [checkpatch.pl] is. *)
Definition needs_checkpatch_path_os : OS := {|
  world := nat;
  spawn := fun argv env n =>
    (if String.eqb (program argv) "git format-patch"
     then Completed 0 ("/tmp/tmpXYZ/0001-change.patch" +++ nl)
     else if String.eqb (program argv) "devtools/checkpatches.sh"
          then match env with
               | Some e =>
                   match env_get checkpatch_key e with
                   | Some _ => Completed 0 "fine"
                   | None => Completed 1 "cannot find checkpatch.pl"
                   end
               | None => Completed 1 "cannot find checkpatch.pl"
               end
          else Completed 0 "fine",
     S n);
  chdir := fun _ n => (None, S n);
  mkdtemp := fun n => (inr "/tmp/tmpXYZ", S n);
  rmtree := fun _ n => (None, S n);
  environ := fun _ => [("HOME", "/root")]
|}.

(** ** The policy as a parameter *)

(** [opts] with [exit_on_err] set to [b]: what [-e] changes. *)
Definition with_exit_on_err (b : bool) (o : options) : options :=
  {| repo_dir := repo_dir o; num_jobs := num_jobs o;
     exit_on_err := b; skip_builds := skip_builds o;
     build_type := build_type o; use_gcc := use_gcc o;
     use_clang := use_clang o; run_checkgitlog := run_checkgitlog o;
     run_checkpatch := run_checkpatch o |}.

(** ** The order of the commands as an automaton *)

(** Running an automaton over a trace; [None] when an event is not
    allowed in the state reached. *)
Fixpoint exec {St : Type} (step : St -> event -> option St) (st : St)
    (t : list event) : option St :=
  match t with
  | [] => Some st
  | e :: t' =>
      match step st e with
      | Some st' => exec step st' t'
      | None => None
      end
  end.

(** Where a run stands: nothing done, range resolved, a revision checked
    out, its message checked, its builds under way, its patch generated,
    its patch stage over; [Dead] after a command that ends the run. *)
Inductive phase : Type :=
| Idle | Resolved | CheckedOut | MessageChecked | Building
| PatchGenerated | PatchDone | Dead.

Definition succeeded (res : proc_result) : bool :=
  match res with
  | Completed rc _ => (rc =? 0)%Z
  | LaunchFail _ _ => false
  end.

Definition completed (res : proc_result) : bool :=
  match res with
  | Completed _ _ => true
  | LaunchFail _ _ => false
  end.

(** The commands allowed in each phase.  [git log] comes first and once;
    a checkout starts a revision; the message check directly follows the
    checkout; builds come before the patch stage; the checker needs a
    generated patch.  A failed [git log] or [git checkout] and any
    command that cannot be launched lead to [Dead], where no command is
    allowed.  Events other than commands leave the phase as it is. *)
Definition phase_step (ph : phase) (e : event) : option phase :=
  match e with
  | Spawned argv res =>
      let p := program argv in
      if String.eqb p "git log" then
        match ph with
        | Idle => Some (if succeeded res then Resolved else Dead)
        | _ => None
        end
      else if String.eqb p "git checkout" then
        match ph with
        | Resolved | CheckedOut | MessageChecked | Building | PatchDone =>
            Some (if succeeded res then CheckedOut else Dead)
        | _ => None
        end
      else if String.eqb p "devtools/check-git-log.sh" then
        match ph with
        | CheckedOut => Some (if completed res then MessageChecked else Dead)
        | _ => None
        end
      else if String.eqb p "devtools/test-build.sh" then
        match ph with
        | CheckedOut | MessageChecked | Building =>
            Some (if completed res then Building else Dead)
        | _ => None
        end
      else if String.eqb p "git format-patch" then
        match ph with
        | CheckedOut | MessageChecked | Building =>
            Some (if succeeded res then PatchGenerated
                  else if completed res then PatchDone else Dead)
        | _ => None
        end
      else if String.eqb p "devtools/checkpatches.sh" then
        match ph with
        | PatchGenerated => Some (if completed res then PatchDone else Dead)
        | _ => None
        end
      else None
  | _ => Some ph
  end.

(** The phases in which a revision can start. *)
Definition between_revisions (ph : phase) : bool :=
  match ph with
  | Resolved | CheckedOut | MessageChecked | Building | PatchDone => true
  | _ => false
  end.

(** The phases in which a build or the patch stage can start. *)
Definition in_revision (ph : phase) : bool :=
  match ph with
  | CheckedOut | MessageChecked | Building => true
  | _ => false
  end.

Definition is_phase (ph ph' : phase) : bool :=
  match ph, ph' with
  | Idle, Idle | Resolved, Resolved | CheckedOut, CheckedOut
  | MessageChecked, MessageChecked | Building, Building
  | PatchGenerated, PatchGenerated | PatchDone, PatchDone | Dead, Dead => true
  | _, _ => false
  end.

(** [obeys pre post o]: from every phase of [pre] the automaton accepts
    the trace of the run [o], and ends in a phase of [post] when [o]
    returned normally. *)
Definition obeys {W A : Type} (pre post : phase -> bool) (o : outcome W A)
  : Prop :=
  forall ph, pre ph = true ->
    match exec phase_step ph (trace o) with
    | Some ph' =>
        match result o with
        | inr _ => post ph' = true
        | inl _ => True
        end
    | None => False
    end.

(** The scratch directory in use, if any.  A directory is created only
    when none is in use and removed only when it is the one in use; the
    two commands of the patch-style check run only with a scratch
    directory, [git format-patch] writing into it, and every other
    command and [chdir] only without one. *)
Definition scratch_step (dir : option string) (e : event)
  : option (option string) :=
  match e with
  | Mkdtemp (inr d) =>
      match dir with None => Some (Some d) | Some _ => None end
  | Mkdtemp (inl _) =>
      match dir with None => Some None | Some _ => None end
  | Rmtree d _ =>
      match dir with
      | Some d' => if String.eqb d d' then Some None else None
      | None => None
      end
  | Spawned argv _ =>
      if String.eqb (program argv) "git format-patch" then
        match dir, argv with
        | Some d, [_; _; _; target; _] =>
            if String.eqb target d then Some dir else None
        | _, _ => None
        end
      else if String.eqb (program argv) "devtools/checkpatches.sh" then
        match dir with Some _ => Some dir | None => None end
      else
        match dir with None => Some None | Some _ => None end
  | Chdir _ _ =>
      match dir with None => Some None | Some _ => None end
  | Out _ | Err _ => Some dir
  end.

(** [tidy o]: the run [o] uses scratch directories as [scratch_step]
    allows and leaves none behind without having called [rmtree] on it. *)
Definition tidy {W A : Type} (o : outcome W A) : Prop :=
  exec scratch_step None (trace o) = Some None.

(** No condition on what follows a stopping event. *)
Definition anything (e : event) (post : list event) : Prop := True.

(** ** Outputs of [git log] with lines that name no revision *)

(** A line of output: a revision as git prints it, or some other text. *)
Definition render_line (l : (string * string) + string) : string :=
  match l with
  | inl r => log_line r
  | inr text => text
  end.

Definition revisions_of (ls : list ((string * string) + string))
  : list (string * string) :=
  flat_map (fun l => match l with inl r => [r] | inr _ => [] end) ls.

(** A line without newline that is empty or starts with a blank. *)
Definition blank_led (text : string) : bool :=
  string_forallb (fun c => negb (is_newline c)) text
  && match text with
     | EmptyString => true
     | String c _ => is_space c
     end.

Definition revision_or_blank_led (l : (string * string) + string) : bool :=
  match l with
  | inl r => wf_rev r
  | inr text => blank_led text
  end.

(** ** The default job count *)

(** [check_commits.py --use-clang yes v1 v2]: both compilers, build type
    [full], no [-j]. *)
Definition default_jobs_opts : options := parse_args "/repo" [OptUseClang yes].

Definition default_jobs_run : outcome nat unit :=
  main (os := repo_os []) default_jobs_opts range_args 0%nat.

(** The message of the [TypeError] of [str + int]. *)
Definition str_int_error : exn :=
  TypeError "cannot concatenate 'str' and 'int' objects".
(** * Properties *)

(** ** The regular expression on the output of [git log] *)

Example findall_two_lines :
  findall ("c3c3c3 net: newest change" +++ nl +++ "a1a1a1 eal: oldest change")
  = [("c3c3c3", "net: newest change"); ("a1a1a1", "eal: oldest change")].
Proof. reflexivity. Qed.

(** An empty subject still matches; a line that starts with a blank, or
    that has no blank at all at the end of the text, does not. *)
Example findall_odd_lines :
  findall ("c3c3c3 " +++ nl +++ " indented line" +++ nl +++ "a1a1a1")
  = [("c3c3c3", EmptyString)].
Proof. reflexivity. Qed.

(** [\s] also matches the newline, so a line without a blank takes the
    next line as its subject. *)
Example findall_across_lines :
  findall ("c3c3c3" +++ nl +++ "a1a1a1 eal: oldest change")
  = [("c3c3c3", "a1a1a1 eal: oldest change")].
Proof. reflexivity. Qed.

Example rstrip_patch_path :
  rstrip ("/tmp/tmpXYZ/0001-change.patch" +++ nl)
  = "/tmp/tmpXYZ/0001-change.patch".
Proof. reflexivity. Qed.

Example healthy_run :
  spawned (trace (main (os := repo_os []) jobs4_opts range_args 0%nat))
  = git_log_cmd "v1" "v2"
    :: flat_map
      (fun h =>
         [ checkout_cmd h; check_git_log_cmd;
           test_build_cmd "full" "x86_64-native-linuxapp-gcc" "-j4";
           test_build_cmd "full" "x86_64-native-linuxapp-gcc+shared" "-j4";
           format_patch_cmd "/tmp/tmpXYZ";
           check_patch_cmd "/tmp/tmpXYZ/0001-change.patch" ])
      ["a1a1a1"; "b2b2b2"; "c3c3c3"]
  /\ result (main (os := repo_os []) jobs4_opts range_args 0%nat) = inr tt.
Proof. split; vm_compute; reflexivity. Qed.

Lemma span_length (p : ascii -> bool) (s : string) :
  String.length s
  = (String.length (fst (span p s)) + String.length (snd (span p s)))%nat.
Proof.
  induction s as [|c s IH]; simpl; [reflexivity|].
  destruct (p c); simpl; [|reflexivity].
  destruct (span p s) as [a b]; simpl in *. lia.
Qed.

(** A greedy run stops exactly at the first character outside the class. *)
Lemma span_stop (p : ascii -> bool) (a rest : string) :
  string_forallb p a = true ->
  match rest with
  | EmptyString => True
  | String c _ => p c = false
  end ->
  span p (a +++ rest) = (a, rest).
Proof.
  intros Ha Hrest. induction a as [|c a IH]; simpl in *.
  - destruct rest as [|c r]; simpl; [reflexivity|]. now rewrite Hrest.
  - apply andb_true_iff in Ha as [Hc Ha]. rewrite Hc, (IH Ha). reflexivity.
Qed.

(** A successful match consumes at least two characters. *)
Lemma match_here_shorter (s h sub rest : string) (bol : bool) :
  match_here s = Some (h, sub, bol, rest) ->
  (String.length rest + 2 <= String.length s)%nat.
Proof.
  unfold match_here. intros H.
  pose proof (span_length (fun c => negb (is_space c)) s) as L1.
  destruct (span (fun c => negb (is_space c)) s) as [[|h0 h'] [|c r]];
    try discriminate.
  pose proof (span_length (fun c => negb (is_newline c)) r) as L2.
  destruct (span (fun c => negb (is_newline c)) r) as [sub' rest'].
  inversion H; subst. simpl in *. lia.
Qed.

(** The fuel of [findall] is enough: more fuel changes nothing. *)
Lemma findall_aux_fuel (n m : nat) :
  forall (s : string) (bol : bool),
    (String.length s < n)%nat -> (String.length s < m)%nat ->
    findall_aux n bol s = findall_aux m bol s.
Proof.
  revert m. induction n as [|n IH]; intros m s bol Hn Hm; [lia|].
  destruct m as [|m]; [lia|]. simpl.
  destruct (if bol then match_here s else None)
    as [[[[h sub] bol'] rest]|] eqn:E.
  - destruct bol; [|discriminate].
    apply match_here_shorter in E. f_equal. apply IH; lia.
  - destruct s as [|c s']; [reflexivity|]. simpl in *. apply IH; lia.
Qed.

Lemma wf_rev_parts (r : string * string) :
  wf_rev r = true ->
  fst r <> EmptyString
  /\ string_forallb (fun c => negb (is_space c)) (fst r) = true
  /\ string_forallb (fun c => negb (is_newline c)) (snd r) = true.
Proof.
  unfold wf_rev. intros H.
  apply andb_true_iff in H as [H H3]. apply andb_true_iff in H as [H1 H2].
  repeat split; try assumption.
  intros E. rewrite E in H1. discriminate.
Qed.

Lemma append_assoc (a b c : string) : (a +++ b) +++ c = a +++ (b +++ c).
Proof. induction a as [|x a IH]; simpl; [reflexivity|]. now rewrite IH. Qed.

(** One printed line is matched whole, whatever follows it on the next
    lines. *)
Lemma match_here_log_line (r : string * string) (rest : string) :
  wf_rev r = true ->
  match rest with
  | EmptyString => True
  | String c _ => c = nl_char
  end ->
  match_here (log_line r +++ rest) = Some (fst r, snd r, false, rest).
Proof.
  intros Hwf Hrest. destruct (wf_rev_parts r Hwf) as (Hne & Hh & Hs).
  destruct r as [h sub]; simpl in *.
  unfold match_here, log_line; simpl fst; simpl snd.
  rewrite !append_assoc.
  rewrite (span_stop _ h (" " +++ sub +++ rest) Hh) by reflexivity.
  destruct h as [|h0 h']; [contradiction|].
  change (" " +++ sub +++ rest) with (String " " (sub +++ rest)).
  cbv iota beta.
  rewrite (span_stop _ sub rest Hs).
  - destruct sub; reflexivity.
  - destruct rest as [|c rest']; [exact I|]. subst c. reflexivity.
Qed.

Lemma render_log_cons (r : string * string) (revs : list (string * string)) :
  render_log (r :: revs)
  = log_line r +++ match revs with
                   | [] => EmptyString
                   | _ :: _ => nl +++ render_log revs
                   end.
Proof.
  unfold render_log, join. simpl. destruct (map log_line revs) eqn:E.
  - destruct revs; [|discriminate]. clear E.
    induction (log_line r) as [|c s IH]; simpl; [reflexivity|]. now rewrite <- IH.
  - destruct revs; [discriminate|]. reflexivity.
Qed.

(** Parsing what git printed gives back the revisions, in git's order. *)
Lemma findall_aux_render_log (revs : list (string * string)) :
  forallb wf_rev revs = true ->
  forall fuel, (2 * List.length revs <= fuel)%nat ->
    findall_aux fuel true (render_log revs) = revs.
Proof.
  induction revs as [|r revs IH]; intros Hwf fuel Hfuel.
  - destruct fuel; reflexivity.
  - simpl in Hwf. apply andb_true_iff in Hwf as [Hr Hwf].
    simpl in Hfuel. destruct fuel as [|fuel]; [lia|].
    rewrite render_log_cons. cbn [findall_aux].
    rewrite (match_here_log_line r _ Hr).
    + destruct r as [h sub]; simpl fst; simpl snd. f_equal.
      destruct revs as [|r' revs'].
      * destruct fuel; reflexivity.
      * destruct fuel as [|fuel]; [simpl in Hfuel; lia|].
        change (nl +++ render_log (r' :: revs'))
          with (String nl_char (render_log (r' :: revs'))).
        cbn [findall_aux].
        change (is_newline nl_char) with true.
        apply IH; [assumption | simpl in *; lia].
    + destruct revs; [exact I | reflexivity].
Qed.

Lemma append_length (a b : string) :
  String.length (a +++ b) = (String.length a + String.length b)%nat.
Proof. induction a; simpl; congruence. Qed.

Lemma render_log_length (revs : list (string * string)) :
  forallb wf_rev revs = true ->
  (2 * List.length revs <= S (String.length (render_log revs)))%nat.
Proof.
  induction revs as [|r revs IH]; intros Hwf; [simpl; lia|].
  simpl in Hwf. apply andb_true_iff in Hwf as [Hr Hwf].
  specialize (IH Hwf). rewrite render_log_cons.
  destruct (wf_rev_parts r Hr) as (Hne & _ & _).
  unfold log_line. rewrite !append_length.
  destruct (fst r) as [|c h]; [contradiction|].
  destruct revs as [|r' revs']; simpl in *.
  - lia.
  - rewrite ?append_length in *. simpl in *. lia.
Qed.

Lemma findall_render_log (revs : list (string * string)) :
  forallb wf_rev revs = true -> findall (render_log revs) = revs.
Proof.
  intros Hwf. unfold findall.
  apply findall_aux_render_log; [assumption|].
  now apply render_log_length.
Qed.

(** ** Running the monad *)

Arguments running_msg : simpl never.
Arguments test_build_cmd : simpl never.

(** Neither [start] nor [end] is bound where the handler of
    [get_commit_list] reads them. *)
Lemma lookup_start {os : OS} (start_ref end_ref : string) (e : exn) :
  lookup_name (os := os) (get_commit_list_scope start_ref end_ref e) "start"
  = raise (NameError "start").
Proof. vm_compute. reflexivity. Qed.

(** So the handler never gets to write its message: reading [start]
    raises [NameError]. *)
Lemma get_commit_list_run {os : OS} (start_ref end_ref : string) (w : world os) :
  get_commit_list start_ref end_ref w
  = let (res, w') := spawn os (git_log_cmd start_ref end_ref) None w in
    Outcome [Spawned (git_log_cmd start_ref end_ref) res] w'
      (match res with
       | Completed rc out =>
           if (rc =? 0)%Z then inr (rev (findall out))
           else inl (NameError "start")
       | LaunchFail errno msg => inl (OSError errno msg)
       end).
Proof.
  unfold get_commit_list.
  cbv beta iota zeta delta [bind try_except_else check_output ret].
  destruct (spawn os (git_log_cmd start_ref end_ref) None w)
    as [[rc out | errno msg] w']; [|reflexivity].
  destruct (rc =? 0)%Z; cbv beta iota zeta delta [trace after result].
  - now rewrite !app_nil_r.
  - rewrite lookup_start. reflexivity.
Qed.

(** Unfold a stage down to the answers of the operating system. *)
Ltac unfold_stage :=
  rewrite ?get_commit_list_run;
  cbv beta iota zeta delta
    [check_git_log run_test_build checkout_commit_with_hash
     check_patch check_patch_checks remove_temp_dir enter_repo_dir
     try_except_else try_finally bind ret raise lift sys_exit
     stdout_write stderr_write check_output check_call os_chdir
     tempfile_mkdtemp shutil_rmtree os_environ_copy
     str_add get_strerror trace after result].

Ltac project := cbv beta iota zeta delta [trace after result app].

Ltac use_answers :=
  repeat match goal with
    | H : Z.eqb ?a ?b = _ |- context [Z.eqb ?a ?b] => rewrite H
    | H : exit_on_err _ = _ |- context [exit_on_err _] => rewrite H
    end.

(** Split on every answer of the operating system in the goal. *)
Ltac split_answer :=
  match goal with
  | |- context [spawn ?o ?a ?e ?w] =>
      let rc := fresh "rc" in
      let E := fresh "Erc" in
      destruct (spawn o a e w) as [[rc ? | ? ?] ?];
      [destruct (Z.eqb rc 0) eqn:E|]
  | |- context [chdir ?o ?d ?w] =>
      destruct (chdir o d w) as [[[? ?]|] ?]
  | |- context [mkdtemp ?o ?w] =>
      destruct (mkdtemp o w) as [[[? ?]|?] ?]
  | |- context [rmtree ?o ?d ?w] =>
      let n := fresh "errno" in
      let E := fresh "Eno" in
      destruct (rmtree o d w) as [[[n ?]|] ?];
      [destruct (Z.eqb n ENOENT) eqn:E|]
  end.

Ltac split_answers :=
  project; repeat (first [progress use_answers | split_answer]; project).

Lemma test_build_cmd_head (build_type arch_str j : string) :
  test_build_cmd build_type arch_str j
  = "devtools/test-build.sh" :: j
      :: (if String.eqb build_type "short" then ["-s"] else []) ++ [arch_str].
Proof. unfold test_build_cmd. destruct (String.eqb build_type "short"); reflexivity. Qed.

(** Evaluate a predicate on an explicit trace. *)
Ltac evaluate :=
  rewrite ?test_build_cmd_head;
  repeat match goal with
    | |- context [String.eqb ?bt "short"] => destruct (String.eqb bt "short")
    end;
  simpl; use_answers; simpl.

Section Sequencing.
Context {os : OS}.

Lemma trace_bind {A B} (m : M os A) (f : A -> M os B) (w : world os) :
  trace (bind m f w)
  = trace (m w) ++ match result (m w) with
                   | inr a => trace (f a (after (m w)))
                   | inl _ => []
                   end.
Proof.
  unfold bind. destruct (m w) as [t w1 [e | a]]; simpl;
    [now rewrite app_nil_r|].
  now destruct (f a w1).
Qed.

Lemma result_bind {A B} (m : M os A) (f : A -> M os B) (w : world os) :
  result (bind m f w)
  = match result (m w) with
    | inr a => result (f a (after (m w)))
    | inl e => inl e
    end.
Proof.
  unfold bind. destruct (m w) as [t w1 [e | a]]; simpl; [reflexivity|].
  now destruct (f a w1).
Qed.

Lemma halted_by_bind {A B} stop after_stop
    (m : M os A) (f : A -> M os B) (w : world os) :
  halted_by stop after_stop (m w) ->
  (forall a w', halted_by stop after_stop (f a w')) ->
  halted_by stop after_stop (bind m f w).
Proof.
  intros Hm Hf. unfold halted_by in *.
  rewrite trace_bind, result_bind.
  destruct Hm as [Hm | (pre & e & post & Ht & Hpre & He & Hafter & Hexit)].
  - destruct (result (m w)) as [x | a].
    + left. now rewrite app_nil_r.
    + destruct (Hf a (after (m w)))
        as [Hc | (pre & e & post & Ht & Hpre & He & Hafter & Hexit)].
      * left. rewrite forallb_app, Hm, Hc. reflexivity.
      * right. exists (trace (m w) ++ pre), e, post.
        rewrite Ht, <- app_assoc, forallb_app, Hm, Hpre. auto.
  - destruct (result (m w)) as [x | a]; [|discriminate].
    right. exists pre, e, post. rewrite app_nil_r. auto.
Qed.

Lemma all_reported_app (t1 t2 : list event) :
  all_reported t1 -> all_reported t2 -> all_reported (t1 ++ t2).
Proof.
  intros H1 H2. induction t1 as [|e t1 IH]; simpl in *; [assumption|].
  destruct H1 as [He H1]. split; [|now apply IH].
  intros Hf. specialize (He Hf). unfold reported in *.
  destruct e as [| |argv [rc out|]| | |]; try contradiction.
  destruct t1 as [|[line| | | | |] [|[|text| | | |] t1']]; try contradiction.
  exact He.
Qed.

Lemma all_reported_bind {A B} (m : M os A) (f : A -> M os B) (w : world os) :
  all_reported (trace (m w)) ->
  (forall a w', all_reported (trace (f a w'))) ->
  all_reported (trace (bind m f w)).
Proof.
  intros Hm Hf. rewrite trace_bind. apply all_reported_app; [assumption|].
  destruct (result (m w)); [exact I | apply Hf].
Qed.

Lemma checkouts_app (t1 t2 : list event) :
  checkouts (t1 ++ t2) = checkouts t1 ++ checkouts t2.
Proof. apply flat_map_app. Qed.

Lemma spawned_app (t1 t2 : list event) :
  spawned (t1 ++ t2) = spawned t1 ++ spawned t2.
Proof. apply flat_map_app. Qed.

Lemma count_program_app (p : string) (t1 t2 : list event) :
  count_program p (t1 ++ t2)
  = (count_program p t1 + count_program p t2)%nat.
Proof.
  unfold count_program, programs.
  now rewrite spawned_app, map_app, filter_app, length_app.
Qed.

Lemma runs_through_bind {A B} opts p n1 n2 hs1 hs2
    (m : M os A) (f : A -> M os B) (w : world os) :
  runs_through opts p n1 hs1 (m w) ->
  (forall a, result (m w) = inr a ->
             runs_through opts p n2 hs2 (f a (after (m w)))) ->
  runs_through opts p (n1 + n2) (hs1 ++ hs2) (bind m f w).
Proof.
  unfold runs_through. intros Hm Hf. rewrite trace_bind, result_bind.
  rewrite forallb_app. intros H. apply andb_true_iff in H as [H1 H2].
  destruct (Hm H1) as ((a & Ha) & Hn & Hhs). rewrite Ha in *.
  destruct (Hf a eq_refl H2) as (Hb & Hn2 & Hhs2).
  split; [assumption|].
  rewrite count_program_app, checkouts_app. now subst.
Qed.

Lemma firstn_app_more {X} (k : nat) (l1 l2 : list X) :
  exists k', firstn k l1 = firstn k' (l1 ++ l2).
Proof.
  exists (Nat.min k (List.length l1)).
  rewrite firstn_app.
  replace (Nat.min k (List.length l1) - List.length l1)%nat with 0%nat by lia.
  simpl. rewrite app_nil_r.
  destruct (Nat.le_ge_cases k (List.length l1)) as [H | H].
  - now rewrite Nat.min_l.
  - rewrite Nat.min_r by assumption.
    now rewrite firstn_all, firstn_all2.
Qed.

Lemma ordered_bind {A B} hs1 hs2
    (m : M os A) (f : A -> M os B) (w : world os) :
  ordered hs1 (m w) ->
  (forall a, result (m w) = inr a -> ordered hs2 (f a (after (m w)))) ->
  ordered (hs1 ++ hs2) (bind m f w).
Proof.
  unfold ordered. intros [[k Hk] Hall] Hf. rewrite trace_bind, result_bind.
  destruct (result (m w)) as [x | a].
  - rewrite app_nil_r. split.
    + rewrite Hk. apply firstn_app_more.
    + intros [b Hb]. discriminate.
  - destruct (Hf a eq_refl) as [[k2 Hk2] Hall2].
    rewrite checkouts_app, (Hall (ex_intro _ a eq_refl)). split.
    + exists (List.length hs1 + k2)%nat.
      rewrite firstn_app_2. now rewrite Hk2.
    + intros Hb. now rewrite (Hall2 Hb).
Qed.

Lemma ordered_nil {W A} (o : outcome W A) :
  checkouts (trace o) = [] -> ordered [] o.
Proof.
  intros H. unfold ordered. rewrite H. split; [now exists 0%nat | reflexivity].
Qed.

Lemma quiet_bind {A B} q (m : M os A) (f : A -> M os B) (w : world os) :
  quiet q (m w) -> (forall a w', quiet q (f a w')) -> quiet q (bind m f w).
Proof.
  unfold quiet. intros Hm Hf. rewrite trace_bind, forallb_app, Hm.
  destruct (result (m w)); [reflexivity | apply Hf].
Qed.
End Sequencing.

(** ** The stages, one by one *)

Ltac solve_after :=
  lazymatch goal with
  | |- after_failed_check _ _ =>
      split;
      [first [left; split; reflexivity | right; split; reflexivity]
      | reflexivity]
  | |- after_launch_failure _ _ =>
      split; [reflexivity | evaluate; reflexivity]
  end.

Ltac try_stop pre l :=
  lazymatch l with
  | ?e :: ?post =>
      first [ solve [ exists pre, e, post;
                      split; [reflexivity|];
                      split; [evaluate; reflexivity|];
                      split; [evaluate; reflexivity|];
                      split; [solve_after | reflexivity] ]
            | try_stop constr:(pre ++ [e]) post ]
  end.

Ltac solve_halted :=
  unfold halted_by; project;
  first [ left; evaluate; reflexivity
        | right;
          lazymatch goal with
          | |- exists pre e post, ?t = _ /\ _ => try_stop (@nil event) t
          end ].

Ltac halted_stage :=
  intros; unfold_stage; split_answers; use_answers; project; solve_halted.

Ltac solve_reported :=
  repeat lazymatch goal with
    | |- all_reported (_ :: _) =>
        split;
        [ first [ evaluate; discriminate
                | intros _;
                  first [left; split; reflexivity | right; split; reflexivity] ]
        | ]
    | |- all_reported [] => exact I
    end.

Ltac reported_stage :=
  intros; unfold_stage; split_answers; use_answers; project; solve_reported.

Ltac listed_stage :=
  intros; unfold quiet; unfold_stage; split_answers; use_answers; project;
  evaluate; reflexivity.

Ltac count_cases p :=
  unfold count_program, programs, indicator; evaluate;
  repeat match goal with
    | H : String.eqb p ?x = _ |- context [String.eqb p ?x] => rewrite H
    end;
  repeat match goal with
    | |- context [String.eqb p ?x] => destruct (String.eqb p x)
    end;
  reflexivity.

Ltac runs_stage p :=
  intros; unfold runs_through; unfold_stage; split_answers;
  let Hns := fresh "Hns" in
  intros Hns;
  first [ exfalso; revert Hns; unfold stopping; evaluate; discriminate
        | clear Hns;
          split; [eexists; reflexivity|];
          split; [count_cases p | evaluate; reflexivity] ].

Section Stages.
Context {os : OS}.
Variable opts : options.

(** *** Exit on error: a stage stops at its first failed check *)

Section ExitOnError.
Hypothesis policy : exit_on_err opts = true.

Lemma enter_repo_dir_stops (w : world os) :
  halted_by failed_check after_failed_check (enter_repo_dir opts w).
Proof.
  unfold enter_repo_dir. destruct (String.eqb (repo_dir opts) EmptyString);
    halted_stage.
Qed.

Lemma get_commit_list_stops (s e : string) (w : world os) :
  halted_by failed_check after_failed_check (get_commit_list s e w).
Proof. halted_stage. Qed.

Lemma checkout_stops (h : string) (w : world os) :
  halted_by failed_check after_failed_check (checkout_commit_with_hash h w).
Proof. halted_stage. Qed.

Lemma check_git_log_stops (w : world os) :
  halted_by failed_check after_failed_check (check_git_log opts w).
Proof. halted_stage. Qed.

Lemma run_test_build_stops (bt arch : string) (n : pyval) (w : world os) :
  halted_by failed_check after_failed_check (run_test_build opts bt arch n w).
Proof. destruct n; halted_stage. Qed.

Lemma check_patch_stops (w : world os) :
  halted_by failed_check after_failed_check (check_patch opts w).
Proof. halted_stage. Qed.
End ExitOnError.

(** *** A command that cannot be launched stops every stage *)

Lemma enter_repo_dir_launch (w : world os) :
  halted_by launch_failed after_launch_failure (enter_repo_dir opts w).
Proof.
  unfold enter_repo_dir. destruct (String.eqb (repo_dir opts) EmptyString);
    halted_stage.
Qed.

Lemma get_commit_list_launch (s e : string) (w : world os) :
  halted_by launch_failed after_launch_failure (get_commit_list s e w).
Proof. halted_stage. Qed.

Lemma checkout_launch (h : string) (w : world os) :
  halted_by launch_failed after_launch_failure (checkout_commit_with_hash h w).
Proof. halted_stage. Qed.

Lemma check_git_log_launch (w : world os) :
  halted_by launch_failed after_launch_failure (check_git_log opts w).
Proof. destruct (exit_on_err opts) eqn:Hpol; halted_stage. Qed.

Lemma run_test_build_launch (bt arch : string) (n : pyval) (w : world os) :
  halted_by launch_failed after_launch_failure (run_test_build opts bt arch n w).
Proof. destruct (exit_on_err opts) eqn:Hpol; destruct n; halted_stage. Qed.

Lemma check_patch_launch (w : world os) :
  halted_by launch_failed after_launch_failure (check_patch opts w).
Proof. destruct (exit_on_err opts) eqn:Hpol; halted_stage. Qed.

(** *** Every failed check is reported, whatever the policy *)

Lemma enter_repo_dir_reported (w : world os) :
  all_reported (trace (enter_repo_dir opts w)).
Proof.
  unfold enter_repo_dir. destruct (String.eqb (repo_dir opts) EmptyString);
    reported_stage.
Qed.

Lemma get_commit_list_reported (s e : string) (w : world os) :
  all_reported (trace (get_commit_list s e w)).
Proof. reported_stage. Qed.

Lemma checkout_reported (h : string) (w : world os) :
  all_reported (trace (checkout_commit_with_hash h w)).
Proof. reported_stage. Qed.

Lemma check_git_log_reported (w : world os) :
  all_reported (trace (check_git_log opts w)).
Proof. destruct (exit_on_err opts) eqn:Hpol; reported_stage. Qed.

Lemma run_test_build_reported (bt arch : string) (n : pyval) (w : world os) :
  all_reported (trace (run_test_build opts bt arch n w)).
Proof. destruct (exit_on_err opts) eqn:Hpol; destruct n; reported_stage. Qed.

Lemma check_patch_reported (w : world os) :
  all_reported (trace (check_patch opts w)).
Proof. destruct (exit_on_err opts) eqn:Hpol; reported_stage. Qed.

(** *** A stage that meets no stopping event runs through *)

Lemma enter_repo_dir_runs (p : string) (w : world os) :
  runs_through opts p 0 [] (enter_repo_dir opts w).
Proof.
  unfold enter_repo_dir. destruct (String.eqb (repo_dir opts) EmptyString);
    destruct (exit_on_err opts) eqn:Hpol; runs_stage p.
Qed.

Lemma get_commit_list_runs (p s e : string) (w : world os) :
  runs_through opts p (indicator (String.eqb p "git log")) []
    (get_commit_list s e w).
Proof. destruct (exit_on_err opts) eqn:Hpol; runs_stage p. Qed.

Lemma checkout_runs (p h : string) (w : world os) :
  runs_through opts p (indicator (String.eqb p "git checkout")) [h]
    (checkout_commit_with_hash h w).
Proof. destruct (exit_on_err opts) eqn:Hpol; runs_stage p. Qed.

Lemma check_git_log_runs (p : string) (w : world os) :
  runs_through opts p (indicator (String.eqb p "devtools/check-git-log.sh")) []
    (check_git_log opts w).
Proof. destruct (exit_on_err opts) eqn:Hpol; runs_stage p. Qed.

Lemma run_test_build_runs (p bt arch j : string) (w : world os) :
  runs_through opts p (indicator (String.eqb p "devtools/test-build.sh")) []
    (run_test_build opts bt arch (PyStr j) w).
Proof. destruct (exit_on_err opts) eqn:Hpol; runs_stage p. Qed.

Lemma check_patch_runs (p : string) (w : world os) :
  String.eqb p "devtools/checkpatches.sh" = false ->
  runs_through opts p (indicator (String.eqb p "git format-patch")) []
    (check_patch opts w).
Proof. destruct (exit_on_err opts) eqn:Hpol; runs_stage p. Qed.

(** *** Which commands a stage runs *)

Lemma enter_repo_dir_checkouts (w : world os) :
  checkouts (trace (enter_repo_dir opts w)) = [].
Proof.
  unfold enter_repo_dir. destruct (String.eqb (repo_dir opts) EmptyString);
    listed_stage.
Qed.

Lemma get_commit_list_checkouts (s e : string) (w : world os) :
  checkouts (trace (get_commit_list s e w)) = [].
Proof. listed_stage. Qed.

Lemma checkout_checkouts (h : string) (w : world os) :
  checkouts (trace (checkout_commit_with_hash h w)) = [h].
Proof. listed_stage. Qed.

Lemma check_git_log_checkouts (w : world os) :
  checkouts (trace (check_git_log opts w)) = [].
Proof. destruct (exit_on_err opts) eqn:Hpol; listed_stage. Qed.

Lemma run_test_build_checkouts (bt arch : string) (n : pyval) (w : world os) :
  checkouts (trace (run_test_build opts bt arch n w)) = [].
Proof. destruct (exit_on_err opts) eqn:Hpol; destruct n; listed_stage. Qed.

Lemma check_patch_checkouts (w : world os) :
  checkouts (trace (check_patch opts w)) = [].
Proof. destruct (exit_on_err opts) eqn:Hpol; listed_stage. Qed.

Lemma enter_repo_dir_no_build (w : world os) :
  quiet is_build_event (enter_repo_dir opts w).
Proof.
  unfold enter_repo_dir. destruct (String.eqb (repo_dir opts) EmptyString);
    listed_stage.
Qed.

Lemma get_commit_list_no_build (s e : string) (w : world os) :
  quiet is_build_event (get_commit_list s e w).
Proof. listed_stage. Qed.

Lemma checkout_no_build (h : string) (w : world os) :
  quiet is_build_event (checkout_commit_with_hash h w).
Proof. listed_stage. Qed.

Lemma check_git_log_no_build (w : world os) :
  quiet is_build_event (check_git_log opts w).
Proof. destruct (exit_on_err opts) eqn:Hpol; listed_stage. Qed.

Lemma check_patch_no_build (w : world os) :
  quiet is_build_event (check_patch opts w).
Proof. destruct (exit_on_err opts) eqn:Hpol; listed_stage. Qed.
End Stages.

(** ** From the stages to the whole run *)

Section Pipeline.
Context {os : OS}.
Variable opts : options.

(** The build stage of one revision, as the loop of [main] runs it. *)
Let build_stage (compilers : list string) : M os unit :=
  if negb (String.eqb (build_type opts) "skip")
  then check_builds opts compilers (build_type opts) (num_jobs opts)
         (exit_on_err opts)
  else ret tt.

(** A property of runs that holds of the stages and is kept by
    sequencing holds of the loops and of [main]. *)
Section Sequential.
Variable P : forall A : Type, outcome (world os) A -> Prop.
Hypothesis P_ret : forall A (a : A) w, P A (ret a w).
Hypothesis P_exit : forall A w, P A (sys_exit 1 w).
Hypothesis P_write : forall s w, P unit (stdout_write s w).
Hypothesis P_bind :
  forall A B (m : M os A) (f : A -> M os B) w,
    P A (m w) -> (forall a w', P B (f a w')) -> P B (bind m f w).

Lemma check_builds_seq :
  (forall bt arch n w, P unit (run_test_build opts bt arch n w)) ->
  forall compilers bt n eoe w,
    P unit (check_builds opts compilers bt n eoe w).
Proof.
  intros P_build compilers bt n eoe.
  induction compilers as [|c cs IH]; intros w; simpl.
  - apply P_ret.
  - apply P_bind; [apply P_build|]. intros _ w1.
    apply P_bind; [apply P_build|]. intros _ w2. apply IH.
Qed.

Hypothesis P_checkout : forall h w, P unit (checkout_commit_with_hash h w).
Hypothesis P_msg : forall w, P unit (check_git_log opts w).
Hypothesis P_builds : forall compilers w, P unit (build_stage compilers w).
Hypothesis P_patch : forall w, P unit (check_patch opts w).

Lemma main_loop_seq compilers :
  forall cs i w, P unit (main_loop opts compilers i cs w).
Proof.
  induction cs as [|c cs IH]; intros i w; simpl.
  - apply P_ret.
  - apply P_bind; [destruct (0 <? i)%nat; [apply P_write | apply P_ret]|].
    intros _ w1. apply P_bind; [apply P_write|].
    intros _ w2. apply P_bind; [apply P_checkout|].
    intros _ w3. apply P_bind.
    { destruct (String.eqb (run_checkgitlog opts) "yes");
        [apply P_msg | apply P_ret]. }
    intros _ w4. apply P_bind; [apply (P_builds compilers)|].
    intros _ w5. apply P_bind.
    { destruct (String.eqb (run_checkpatch opts) "yes");
        [apply P_patch | apply P_ret]. }
    intros _ w6. apply IH.
Qed.

Hypothesis P_enter : forall w, P unit (enter_repo_dir opts w).
Hypothesis P_log : forall s e w, P _ (get_commit_list s e w).

Lemma main_seq (args : list string) (w : world os) : P unit (main opts args w).
Proof.
  unfold main. destruct args as [|s [|e rest]].
  - apply P_bind; [|intros; apply P_exit].
    apply P_bind; [apply P_write | intros; apply P_write].
  - apply P_bind; [|intros; apply P_exit].
    apply P_bind; [apply P_write | intros; apply P_write].
  - apply P_bind; [apply P_enter|]. intros _ w1.
    apply P_bind; [apply P_log|]. intros cs w2. apply main_loop_seq.
Qed.
End Sequential.

Lemma build_stage_seq (P : forall A : Type, outcome (world os) A -> Prop) :
  (forall A (a : A) w, P A (ret a w)) ->
  (forall A B (m : M os A) (f : A -> M os B) w,
      P A (m w) -> (forall a w', P B (f a w')) -> P B (bind m f w)) ->
  (forall bt arch n w, P unit (run_test_build opts bt arch n w)) ->
  forall compilers w, P unit (build_stage compilers w).
Proof.
  intros P_ret P_bind P_build compilers w. unfold build_stage.
  destruct (negb (String.eqb (build_type opts) "skip")).
  - now apply check_builds_seq.
  - apply P_ret.
Qed.

(** Under exit-on-error the run stops at its first failed check. *)
Lemma main_stops (args : list string) (w : world os) :
  exit_on_err opts = true ->
  halted_by failed_check after_failed_check (main opts args w).
Proof.
  intros policy.
  apply (main_seq (fun A o => halted_by failed_check after_failed_check o)).
  - intros; now left.
  - intros; now left.
  - intros; now left.
  - intros; now apply halted_by_bind.
  - intros; now apply checkout_stops.
  - intros; now apply check_git_log_stops.
  - apply (build_stage_seq
             (fun A o => halted_by failed_check after_failed_check o)).
    + intros; now left.
    + intros; now apply halted_by_bind.
    + intros; now apply run_test_build_stops.
  - intros; now apply check_patch_stops.
  - intros; now apply enter_repo_dir_stops.
  - intros; now apply get_commit_list_stops.
Qed.

(** Whatever the policy, the run stops at the first command that cannot
    be launched. *)
Lemma main_launch (args : list string) (w : world os) :
  halted_by launch_failed after_launch_failure (main opts args w).
Proof.
  apply (main_seq (fun A o => halted_by launch_failed after_launch_failure o)).
  - intros; now left.
  - intros; now left.
  - intros; now left.
  - intros; now apply halted_by_bind.
  - intros; now apply checkout_launch.
  - intros; now apply check_git_log_launch.
  - apply (build_stage_seq
             (fun A o => halted_by launch_failed after_launch_failure o)).
    + intros; now left.
    + intros; now apply halted_by_bind.
    + intros; now apply run_test_build_launch.
  - intros; now apply check_patch_launch.
  - intros; now apply enter_repo_dir_launch.
  - intros; now apply get_commit_list_launch.
Qed.

(** Every failed check of a run is reported. *)
Lemma main_reported (args : list string) (w : world os) : all_reported (trace (main opts args w)).
Proof.
  apply (main_seq (fun A o => all_reported (trace o))).
  - intros; exact I.
  - intros; exact I.
  - intros; split; [discriminate | exact I].
  - intros; now apply all_reported_bind.
  - intros; now apply checkout_reported.
  - intros; now apply check_git_log_reported.
  - apply (build_stage_seq (fun A o => all_reported (trace o))).
    + intros; exact I.
    + intros; now apply all_reported_bind.
    + intros; now apply run_test_build_reported.
  - intros; now apply check_patch_reported.
  - intros; now apply enter_repo_dir_reported.
  - intros; now apply get_commit_list_reported.
Qed.

(** With builds skipped, no run issues a build. *)
Lemma main_skip_no_build (args : list string) (w : world os) :
  build_type opts = "skip" -> quiet is_build_event (main opts args w).
Proof.
  intros Hskip.
  apply (main_seq (fun A o => quiet is_build_event o)).
  - intros; reflexivity.
  - intros; reflexivity.
  - intros; reflexivity.
  - intros; now apply quiet_bind.
  - intros; now apply checkout_no_build.
  - intros; now apply check_git_log_no_build.
  - intros. unfold build_stage. rewrite Hskip. reflexivity.
  - intros; now apply check_patch_no_build.
  - intros; now apply enter_repo_dir_no_build.
  - intros; now apply get_commit_list_no_build.
Qed.

(** *** Revision order *)

Lemma checkouts_nil_bind {A B} (m : M os A) (f : A -> M os B) (w : world os) :
  checkouts (trace (m w)) = [] ->
  (forall a w', checkouts (trace (f a w')) = []) ->
  checkouts (trace (bind m f w)) = [].
Proof.
  intros Hm Hf. rewrite trace_bind, checkouts_app, Hm.
  destruct (result (m w)); [reflexivity | apply Hf].
Qed.

Lemma build_stage_checkouts compilers (w : world os) :
  checkouts (trace (build_stage compilers w)) = [].
Proof.
  apply (build_stage_seq (fun A o => checkouts (trace o) = [])).
  - reflexivity.
  - intros; now apply checkouts_nil_bind.
  - intros; apply run_test_build_checkouts.
Qed.

Lemma ordered_skip {A B} hs (m : M os A) (f : A -> M os B) (w : world os) :
  checkouts (trace (m w)) = [] ->
  (forall a w', ordered hs (f a w')) ->
  ordered hs (bind m f w).
Proof.
  intros Hm Hf. change hs with ([] ++ hs).
  apply ordered_bind; [now apply ordered_nil | intros; apply Hf].
Qed.

(** The loop checks revisions out in the order of its list, and never
    any other hash. *)
Lemma main_loop_ordered compilers :
  forall cs i (w : world os),
    ordered (map fst cs) (main_loop opts compilers i cs w).
Proof.
  induction cs as [|c cs IH]; intros i w; simpl.
  - apply ordered_nil. reflexivity.
  - apply ordered_skip; [destruct (0 <? i)%nat; reflexivity|].
    intros _ w1. apply ordered_skip; [reflexivity|].
    intros _ w2. change (fst c :: map fst cs) with ([fst c] ++ map fst cs).
    apply ordered_bind.
    { split.
      - exists 1%nat. apply checkout_checkouts.
      - intros _. apply checkout_checkouts. }
    intros _ _. generalize (after (checkout_commit_with_hash (fst c) w2)).
    intros w3. apply ordered_skip.
    { destruct (String.eqb (run_checkgitlog opts) "yes");
        [apply check_git_log_checkouts | reflexivity]. }
    intros _ w4. apply ordered_skip; [apply build_stage_checkouts|].
    intros _ w5. apply ordered_skip.
    { destruct (String.eqb (run_checkpatch opts) "yes");
        [apply check_patch_checkouts | reflexivity]. }
    intros _ w6. apply IH.
Qed.

Lemma main_ordered (s e : string) (rest : list string) (w : world os)
    (commits : list (string * string)) :
  result (get_commit_list s e (after (enter_repo_dir opts w))) = inr commits ->
  ordered (map fst commits) (main opts (s :: e :: rest) w).
Proof.
  intros Hlog. unfold main.
  change (map fst commits) with ([] ++ [] ++ map fst commits).
  apply ordered_bind; [apply ordered_nil, enter_repo_dir_checkouts|].
  intros _ _. apply ordered_bind; [apply ordered_nil, get_commit_list_checkouts|].
  intros cs Hcs. rewrite Hlog in Hcs. inversion Hcs; subst cs.
  apply main_loop_ordered.
Qed.

(** *** Runs that meet no stopping event *)

Lemma runs_through_ret {A} (p : string) (a : A) (w : world os) :
  runs_through opts p 0 [] (ret a w).
Proof. intros _. repeat split. now exists a. Qed.

Lemma runs_through_write (p s : string) (w : world os) :
  runs_through opts p 0 [] (stdout_write s w).
Proof. intros _. repeat split. now exists tt. Qed.

Lemma runs_through_eq {A} p n n' hs hs' (o : outcome (world os) A) :
  n = n' -> hs = hs' -> runs_through opts p n hs o ->
  runs_through opts p n' hs' o.
Proof. now intros -> ->. Qed.

Lemma check_builds_runs (p bt j : string) (eoe : bool) :
  forall compilers (w : world os),
    runs_through opts p
      (List.length compilers
       * (2 * indicator (String.eqb p "devtools/test-build.sh"))) []
      (check_builds opts compilers bt (PyStr j) eoe w).
Proof.
  induction compilers as [|c cs IH]; intros w; simpl.
  - apply runs_through_ret.
  - set (k := indicator (String.eqb p "devtools/test-build.sh")) in *.
    apply (runs_through_eq p (k + (k + List.length cs * (2 * k))) _
             ([] ++ [] ++ [])); [lia | reflexivity |].
    apply runs_through_bind; [apply run_test_build_runs|]. intros _ _.
    apply runs_through_bind; [apply run_test_build_runs|]. intros _ _.
    apply IH.
Qed.

Lemma build_stage_runs (p : string) (w : world os) :
  jobs_usable opts ->
  runs_through opts p
    (if negb (String.eqb (build_type opts) "skip")
     then List.length (compilers_of opts)
          * (2 * indicator (String.eqb p "devtools/test-build.sh"))
     else 0) []
    (build_stage (compilers_of opts) w).
Proof.
  intros Hjobs. unfold build_stage.
  destruct (negb (String.eqb (build_type opts) "skip")) eqn:Hskip;
    [|apply runs_through_ret].
  destruct Hjobs as [[j Hj] | [Hs | Hc]].
  - rewrite Hj. apply check_builds_runs.
  - rewrite Hs in Hskip. discriminate.
  - rewrite Hc. simpl. apply runs_through_ret.
Qed.

Lemma main_loop_runs (p : string) :
  jobs_usable opts ->
  String.eqb p "devtools/checkpatches.sh" = false ->
  forall cs i (w : world os),
    runs_through opts p (List.length cs * per_commit opts p) (map fst cs)
      (main_loop opts (compilers_of opts) i cs w).
Proof.
  intros Hjobs Hp. induction cs as [|c cs IH]; intros i w.
  - apply runs_through_ret.
  - cbn [main_loop map List.length].
    set (n1 := indicator (String.eqb p "git checkout")).
    set (n2 := if String.eqb (run_checkgitlog opts) "yes"
               then indicator (String.eqb p "devtools/check-git-log.sh")
               else 0%nat).
    set (n3 := if negb (String.eqb (build_type opts) "skip")
               then (List.length (compilers_of opts)
                     * (2 * indicator (String.eqb p "devtools/test-build.sh")))%nat
               else 0%nat).
    set (n4 := if String.eqb (run_checkpatch opts) "yes"
               then indicator (String.eqb p "git format-patch") else 0%nat).
    apply (runs_through_eq p
             (0 + (0 + (n1 + (n2 + (n3 + (n4
                + List.length cs * per_commit opts p)))))) _
             ([] ++ [] ++ [fst c] ++ [] ++ [] ++ [] ++ map fst cs));
      [unfold per_commit; fold n1 n2 n3 n4; lia | reflexivity |].
    apply runs_through_bind.
    { destruct (0 <? i)%nat;
        [apply runs_through_write | apply runs_through_ret]. }
    intros _ _. apply runs_through_bind; [apply runs_through_write|].
    intros _ _. apply runs_through_bind; [apply checkout_runs|].
    intros _ _. apply runs_through_bind.
    { unfold n2. destruct (String.eqb (run_checkgitlog opts) "yes");
        [apply check_git_log_runs | apply runs_through_ret]. }
    intros _ _. apply runs_through_bind.
    { apply (build_stage_runs p _ Hjobs). }
    intros _ _. apply runs_through_bind.
    { unfold n4. destruct (String.eqb (run_checkpatch opts) "yes");
        [now apply check_patch_runs | apply runs_through_ret]. }
    intros _ _. apply IH.
Qed.

Lemma main_runs (p s e : string) (rest : list string) (w : world os)
    (commits : list (string * string)) :
  jobs_usable opts ->
  String.eqb p "devtools/checkpatches.sh" = false ->
  result (get_commit_list s e (after (enter_repo_dir opts w))) = inr commits ->
  runs_through opts p
    (indicator (String.eqb p "git log")
     + List.length commits * per_commit opts p)
    (map fst commits) (main opts (s :: e :: rest) w).
Proof.
  intros Hjobs Hp Hlog. unfold main.
  apply (runs_through_eq p
           (0 + (indicator (String.eqb p "git log")
                 + List.length commits * per_commit opts p)) _
           ([] ++ [] ++ map fst commits)); [lia | reflexivity |].
  apply runs_through_bind; [apply enter_repo_dir_runs|].
  intros _ _. apply runs_through_bind; [apply get_commit_list_runs|].
  intros cs Hcs. rewrite Hlog in Hcs. inversion Hcs; subst cs.
  now apply main_loop_runs.
Qed.
End Pipeline.

(** ** The claims *)

Lemma spawned_nil_forallb (stop : event -> bool) (t : list event) :
  (forall e, stop e = true -> is_spawn e = true) ->
  spawned t = [] -> forallb (fun e => negb (stop e)) t = true.
Proof.
  intros Hstop. induction t as [|e t IH]; intros H; [reflexivity|].
  simpl. destruct e; simpl in H; try discriminate;
    (destruct (stop _) eqn:E; [apply Hstop in E; discriminate|]);
    simpl; now apply IH.
Qed.

(** The first event satisfying [stop], with none after it, is the only one. *)
Lemma first_stop_unique (stop : event -> bool) :
  forall pre e post pre' e' post',
    pre ++ e :: post = pre' ++ e' :: post' ->
    forallb (fun x => negb (stop x)) pre = true ->
    forallb (fun x => negb (stop x)) post = true ->
    stop e' = true ->
    pre = pre' /\ e = e' /\ post = post'.
Proof.
  induction pre as [|a pre IH]; intros e post pre' e' post' Heq Hpre Hpost He'.
  - destruct pre' as [|a' pre']; simpl in Heq.
    + inversion Heq. auto.
    + inversion Heq; subst. rewrite forallb_app in Hpost. simpl in Hpost.
      rewrite He' in Hpost. simpl in Hpost.
      rewrite andb_false_r in Hpost. discriminate.
  - simpl in Hpre. apply andb_true_iff in Hpre as [Ha Hpre].
    destruct pre' as [|a' pre']; simpl in Heq.
    + inversion Heq; subst. rewrite He' in Ha. discriminate.
    + inversion Heq; subst.
      destruct (IH _ _ _ _ _ H1 Hpre Hpost He') as (-> & -> & ->). auto.
Qed.

Lemma halted_at {W A} (stop : event -> bool) after_stop (o : outcome W A)
    pre e post :
  halted_by stop after_stop o ->
  (forall x, stop x = true -> is_spawn x = true) ->
  (forall x t, after_stop x t -> spawned t = []) ->
  trace o = pre ++ e :: post ->
  stop e = true ->
  forallb (fun x => negb (stop x)) pre = true
  /\ after_stop e post
  /\ exit_status (result o) = 1%Z.
Proof.
  intros [Hq | (pre0 & e0 & post0 & Ht & Hpre & He0 & Hafter & Hexit)]
    Hspawn Hnone Htrace He.
  - rewrite Htrace, forallb_app in Hq. simpl in Hq. rewrite He in Hq.
    simpl in Hq. rewrite andb_false_r in Hq. discriminate.
  - rewrite Ht in Htrace.
    destruct (first_stop_unique stop _ _ _ _ _ _ Htrace Hpre) as (-> & -> & ->);
      auto.
    apply spawned_nil_forallb; [assumption|]. now apply (Hnone e0).
Qed.

Lemma failed_check_is_spawn (e : event) :
  failed_check e = true -> is_spawn e = true.
Proof. destruct e; simpl; congruence. Qed.

Lemma launch_failed_is_spawn (e : event) :
  launch_failed e = true -> is_spawn e = true.
Proof. destruct e; simpl; congruence. Qed.

(** C1. When [git log] prints the revisions of the range newest first,
    [get_commit_list] hands the pipeline exactly the reversed list, and
    the hashes the run checks out are, in order, the first ones of that
    reversed list (all of it when the run returns): revisions are
    processed oldest first and never in another order. *)
Theorem revisions_processed_oldest_first {os : OS} (opts : options)
    (start_ref end_ref : string) (rest : list string) (w : world os)
    (revs : list (string * string)) :
  forallb wf_rev revs = true ->
  fst (spawn os (git_log_cmd start_ref end_ref) None
         (after (enter_repo_dir opts w)))
  = Completed 0 (render_log revs) ->
  result (get_commit_list start_ref end_ref (after (enter_repo_dir opts w)))
  = inr (rev revs)
  /\ (exists k,
        checkouts (trace (main opts (start_ref :: end_ref :: rest) w))
        = firstn k (map fst (rev revs)))
  /\ (result (main opts (start_ref :: end_ref :: rest) w) = inr tt ->
      checkouts (trace (main opts (start_ref :: end_ref :: rest) w))
      = map fst (rev revs)).
Proof.
  intros Hwf Hlog.
  assert (Hcommits :
            result (get_commit_list start_ref end_ref
                      (after (enter_repo_dir opts w))) = inr (rev revs)).
  { rewrite get_commit_list_run.
    destruct (spawn os (git_log_cmd start_ref end_ref) None
                (after (enter_repo_dir opts w))) as [res w'].
    simpl in Hlog. subst res. simpl.
    now rewrite findall_render_log. }
  split; [exact Hcommits|].
  destruct (main_ordered opts start_ref end_ref rest w _ Hcommits)
    as [Hprefix Hall].
  split; [exact Hprefix|].
  intros Hret. apply Hall. now exists tt.
Qed.

Lemma revisions_processed_oldest_first_witness :
  forallb wf_rev three_commits = true
  /\ fst (spawn (repo_os []) (git_log_cmd "v1" "v2") None
            (after (enter_repo_dir (os := repo_os []) jobs4_opts 0%nat)))
     = Completed 0 (render_log three_commits)
  /\ checkouts (trace (main (os := repo_os []) jobs4_opts range_args 0%nat))
     = ["a1a1a1"; "b2b2b2"; "c3c3c3"].
Proof.
  assert (H1 : forallb wf_rev three_commits = true) by reflexivity.
  assert (H2 : fst (spawn (repo_os []) (git_log_cmd "v1" "v2") None
                      (after (enter_repo_dir (os := repo_os []) jobs4_opts
                                0%nat)))
               = Completed 0 (render_log three_commits)) by reflexivity.
  split; [exact H1|]. split; [exact H2|].
  destruct (revisions_processed_oldest_first (os := repo_os []) jobs4_opts
              "v1" "v2" [] 0%nat three_commits H1 H2) as (_ & _ & Hall).
  apply Hall. vm_compute. reflexivity.
Defined.

(** C2. Under exit-on-error, a check that ran to completion and failed
    is the first such check of the run, its verdict and captured output
    are written right after it, no command runs after it (no further
    build configuration, no further revision) and the process exits with
    status 1. *)
Theorem exit_on_error_stops_at_first_failed_check {os : OS} (opts : options)
    (args : list string) (w : world os) (pre : list event) (e : event)
    (post : list event) :
  exit_on_err opts = true ->
  trace (main opts args w) = pre ++ e :: post ->
  failed_check e = true ->
  forallb (fun x => negb (failed_check x)) pre = true
  /\ reported e post
  /\ spawned post = []
  /\ exit_status (result (main opts args w)) = 1%Z.
Proof.
  intros Hpol Htrace He.
  destruct (halted_at failed_check after_failed_check (main opts args w)
              pre e post (main_stops opts args w Hpol)
              failed_check_is_spawn (fun x t H => proj2 H) Htrace He)
    as (Hpre & [Hrep Hnone] & Hexit).
  auto.
Qed.

Lemma exit_on_error_stops_at_first_failed_check_witness :
  failed_check (event_at 8 (trace build_failure_run)) = true
  /\ spawned (skipn 9 (trace build_failure_run)) = []
  /\ exit_status (result build_failure_run) = 1%Z.
Proof.
  destruct (exit_on_error_stops_at_first_failed_check
              (os := build_failure_os) strict_opts range_args 0%nat
              (firstn 8 (trace build_failure_run))
              (event_at 8 (trace build_failure_run))
              (skipn 9 (trace build_failure_run)))
    as (_ & _ & Hnone & Hexit).
  - reflexivity.
  - vm_compute. reflexivity.
  - vm_compute. reflexivity.
  - split; [vm_compute; reflexivity|]. split; assumption.
Defined.

(** C8. Whatever the policy, a command that cannot be launched (the
    message-style check, a build, the patch-style check or a git command)
    is the first such event of the run, no verdict of a failed check is
    printed for it, no command runs after it and the process exits with
    status 1. *)
Theorem launch_failure_is_always_fatal {os : OS} (opts : options)
    (args : list string) (w : world os) (pre : list event) (e : event)
    (post : list event) :
  trace (main opts args w) = pre ++ e :: post ->
  launch_failed e = true ->
  forallb (fun x => negb (launch_failed x)) pre = true
  /\ forallb (fun x => negb (is_failure_report x)) post = true
  /\ spawned post = []
  /\ exit_status (result (main opts args w)) = 1%Z.
Proof.
  intros Htrace He.
  destruct (halted_at launch_failed after_launch_failure (main opts args w)
              pre e post (main_launch opts args w)
              launch_failed_is_spawn (fun x t H => proj1 H) Htrace He)
    as (Hpre & [Hnone Hrep] & Hexit).
  auto.
Qed.

Lemma launch_failure_is_always_fatal_witness :
  exit_on_err jobs4_opts = false
  /\ launch_failed (event_at 8 (trace broken_tool_run)) = true
  /\ spawned (skipn 9 (trace broken_tool_run)) = []
  /\ exit_status (result broken_tool_run) = 1%Z.
Proof.
  destruct (launch_failure_is_always_fatal
              (os := broken_tool_os) jobs4_opts range_args 0%nat
              (firstn 8 (trace broken_tool_run))
              (event_at 8 (trace broken_tool_run))
              (skipn 9 (trace broken_tool_run)))
    as (_ & _ & Hnone & Hexit).
  - vm_compute. reflexivity.
  - vm_compute. reflexivity.
  - split; [reflexivity|]. split; [vm_compute; reflexivity|].
    split; assumption.
Defined.

Lemma no_stopping_without_policy (opts : options) (t : list event) :
  exit_on_err opts = false ->
  forallb (fun e => negb (stopping opts e)) t
  = forallb (fun e => negb (fatal e)) t.
Proof.
  intros Hpol. induction t as [|e t IH]; [reflexivity|].
  simpl. unfold stopping at 1. rewrite Hpol, IH. simpl.
  now rewrite orb_false_r.
Qed.

(** When the build commands can be put together ([-j] given, or no
    build to run): without exit-on-error, a run that meets no fatal
    condition reports every failed check, still runs every stage of every
    revision of the resolved list, in order, and exits with status 0,
    however many checks failed. *)
Theorem continue_on_error_runs_every_revision {os : OS} (opts : options)
    (start_ref end_ref : string) (rest : list string) (w : world os)
    (commits : list (string * string)) :
  exit_on_err opts = false ->
  jobs_usable opts ->
  result (get_commit_list start_ref end_ref (after (enter_repo_dir opts w)))
  = inr commits ->
  forallb (fun e => negb (fatal e))
    (trace (main opts (start_ref :: end_ref :: rest) w)) = true ->
  all_reported (trace (main opts (start_ref :: end_ref :: rest) w))
  /\ checkouts (trace (main opts (start_ref :: end_ref :: rest) w))
     = map fst commits
  /\ (run_checkgitlog opts = "yes" ->
      count_program "devtools/check-git-log.sh"
        (trace (main opts (start_ref :: end_ref :: rest) w))
      = List.length commits)
  /\ (build_type opts <> "skip" ->
      count_program "devtools/test-build.sh"
        (trace (main opts (start_ref :: end_ref :: rest) w))
      = (List.length commits * (2 * List.length (compilers_of opts)))%nat)
  /\ (run_checkpatch opts = "yes" ->
      count_program "git format-patch"
        (trace (main opts (start_ref :: end_ref :: rest) w))
      = List.length commits)
  /\ result (main opts (start_ref :: end_ref :: rest) w) = inr tt
  /\ exit_status (result (main opts (start_ref :: end_ref :: rest) w)) = 0%Z.
Proof.
  intros Hpol Hjobs Hlog Hfatal.
  set (o := main opts (start_ref :: end_ref :: rest) w) in *.
  assert (Hns : forallb (fun e => negb (stopping opts e)) (trace o) = true)
    by now rewrite no_stopping_without_policy.
  assert (Hrun : forall p,
             String.eqb p "devtools/checkpatches.sh" = false ->
             (exists a, result o = inr a)
             /\ count_program p (trace o)
                = (indicator (String.eqb p "git log")
                   + List.length commits * per_commit opts p)%nat
             /\ checkouts (trace o) = map fst commits).
  { intros p Hp.
    exact (main_runs opts p start_ref end_ref rest w commits Hjobs Hp Hlog Hns). }
  split; [apply main_reported|].
  destruct (Hrun "git checkout" eq_refl) as ((a & Ha) & _ & Hhs).
  split; [exact Hhs|].
  split.
  { intros Hyes.
    destruct (Hrun "devtools/check-git-log.sh" eq_refl) as (_ & Hn & _).
    rewrite Hn. unfold per_commit. rewrite Hyes. simpl.
    destruct (negb (String.eqb (build_type opts) "skip"));
      destruct (String.eqb (run_checkpatch opts) "yes"); simpl; lia. }
  split.
  { intros Hbuild.
    destruct (Hrun "devtools/test-build.sh" eq_refl) as (_ & Hn & _).
    rewrite Hn. unfold per_commit.
    apply String.eqb_neq in Hbuild. rewrite Hbuild. simpl.
    destruct (String.eqb (run_checkgitlog opts) "yes");
      destruct (String.eqb (run_checkpatch opts) "yes"); simpl; lia. }
  split.
  { intros Hyes.
    destruct (Hrun "git format-patch" eq_refl) as (_ & Hn & _).
    rewrite Hn. unfold per_commit. rewrite Hyes. simpl.
    destruct (negb (String.eqb (build_type opts) "skip"));
      destruct (String.eqb (run_checkgitlog opts) "yes"); simpl; lia. }
  destruct a. rewrite Ha. split; reflexivity.
Qed.

Lemma continue_on_error_runs_every_revision_witness :
  count_program "devtools/test-build.sh" (trace failing_checks_run) = 6%nat
  /\ List.length (filter failed_check (trace failing_checks_run)) = 12%nat
  /\ checkouts (trace failing_checks_run) = ["a1a1a1"; "b2b2b2"; "c3c3c3"]
  /\ exit_status (result failing_checks_run) = 0%Z.
Proof.
  destruct (continue_on_error_runs_every_revision
              (os := failing_checks_os) jobs4_opts "v1" "v2" [] 0%nat
              (rev three_commits))
    as (_ & Hhs & _ & Hbuilds & _ & _ & Hexit).
  - reflexivity.
  - left. exists "4". reflexivity.
  - vm_compute. reflexivity.
  - vm_compute. reflexivity.
  - split; [apply Hbuilds; discriminate|].
    split; [vm_compute; reflexivity|].
    split; assumption.
Defined.

(** ** The build matrix *)

Section Builds.
Context {os : OS}.
Variable opts : options.

Lemma run_test_build_spawned (bt arch j : string) (w : world os) :
  forallb (fun e => negb (stopping opts e))
    (trace (run_test_build opts bt arch (PyStr j) w)) = true ->
  (exists a, result (run_test_build opts bt arch (PyStr j) w) = inr a)
  /\ spawned (trace (run_test_build opts bt arch (PyStr j) w))
     = [test_build_cmd bt arch ("-j" +++ j)].
Proof.
  destruct (exit_on_err opts) eqn:Hpol; unfold_stage; split_answers;
    intros Hns;
    first [ exfalso; revert Hns; unfold stopping; evaluate; discriminate
          | split; [eexists; reflexivity | reflexivity] ].
Qed.

Lemma spawned_bind {A B} (cmds1 cmds2 : list (list string))
    (m : M os A) (f : A -> M os B) (w : world os) :
  (forallb (fun e => negb (stopping opts e)) (trace (m w)) = true ->
   (exists a, result (m w) = inr a) /\ spawned (trace (m w)) = cmds1) ->
  (forall a w',
      forallb (fun e => negb (stopping opts e)) (trace (f a w')) = true ->
      (exists b, result (f a w') = inr b)
      /\ spawned (trace (f a w')) = cmds2) ->
  forallb (fun e => negb (stopping opts e)) (trace (bind m f w)) = true ->
  (exists b, result (bind m f w) = inr b)
  /\ spawned (trace (bind m f w)) = cmds1 ++ cmds2.
Proof.
  intros Hm Hf. rewrite trace_bind, result_bind, forallb_app.
  intros H. apply andb_true_iff in H as [H1 H2].
  destruct (Hm H1) as ((a & Ha) & Hs1). rewrite Ha in *.
  destruct (Hf a _ H2) as (Hb & Hs2).
  split; [exact Hb|]. now rewrite spawned_app, Hs1, Hs2.
Qed.

Lemma check_builds_spawned (bt j : string) (eoe : bool) :
  forall compilers (w : world os),
    forallb (fun e => negb (stopping opts e))
      (trace (check_builds opts compilers bt (PyStr j) eoe w)) = true ->
    (exists a, result (check_builds opts compilers bt (PyStr j) eoe w) = inr a)
    /\ spawned (trace (check_builds opts compilers bt (PyStr j) eoe w))
       = flat_map (fun c => [test_build_cmd bt (arch_of c) ("-j" +++ j);
                             test_build_cmd bt (arch_of c +++ "+shared")
                               ("-j" +++ j)]) compilers.
Proof.
  induction compilers as [|c cs IH]; intros w; cbn [check_builds flat_map].
  - intros _. split; [now exists tt | reflexivity].
  - change ([test_build_cmd bt (arch_of c) ("-j" +++ j);
             test_build_cmd bt (arch_of c +++ "+shared") ("-j" +++ j)]
            ++ flat_map
                 (fun c0 => [test_build_cmd bt (arch_of c0) ("-j" +++ j);
                             test_build_cmd bt (arch_of c0 +++ "+shared")
                               ("-j" +++ j)]) cs)
      with ([test_build_cmd bt (arch_of c) ("-j" +++ j)]
            ++ [test_build_cmd bt (arch_of c +++ "+shared") ("-j" +++ j)]
            ++ flat_map
                 (fun c0 => [test_build_cmd bt (arch_of c0) ("-j" +++ j);
                             test_build_cmd bt (arch_of c0 +++ "+shared")
                               ("-j" +++ j)]) cs).
    apply spawned_bind; [apply run_test_build_spawned|]. intros _ w1.
    apply spawned_bind; [apply run_test_build_spawned|]. intros _ w2.
    apply IH.
Qed.
End Builds.

Lemma no_build_count (t : list event) :
  forallb (fun e => negb (is_build_event e)) t = true ->
  count_program "devtools/test-build.sh" t = 0%nat.
Proof.
  unfold count_program, programs.
  induction t as [|e t IH]; intros H; [reflexivity|].
  simpl in H. apply andb_true_iff in H as [He H].
  destruct e; try (now apply IH).
  unfold is_build_event, is_build in He.
  unfold spawned. cbn [flat_map app map filter].
  rewrite String.eqb_sym.
  destruct (String.eqb (program argv) "devtools/test-build.sh");
    [discriminate | now apply IH].
Qed.

(** When [-j] is given: with gcc and clang enabled, a build stage that
    nothing stops issues exactly four builds, in the order gcc, gcc
    shared, clang, clang shared: without flags at level [full], and at
    any level with the same targets in the same order, the level changing
    only the flag [-s].  At level [skip] no run issues any build. *)
Theorem build_matrix_order {os : OS} (opts : options) (j : string) :
  use_gcc opts = "yes" ->
  use_clang opts = "yes" ->
  num_jobs opts = PyStr j ->
  (forall w : world os,
      build_type opts = "full" ->
      forallb (fun e => negb (stopping opts e))
        (trace (check_builds opts (compilers_of opts) (build_type opts)
                  (num_jobs opts) (exit_on_err opts) w)) = true ->
      spawned (trace (check_builds opts (compilers_of opts) (build_type opts)
                        (num_jobs opts) (exit_on_err opts) w))
      = [ ["devtools/test-build.sh"; "-j" +++ j; "x86_64-native-linuxapp-gcc"];
          ["devtools/test-build.sh"; "-j" +++ j;
           "x86_64-native-linuxapp-gcc+shared"];
          ["devtools/test-build.sh"; "-j" +++ j;
           "x86_64-native-linuxapp-clang"];
          ["devtools/test-build.sh"; "-j" +++ j;
           "x86_64-native-linuxapp-clang+shared"] ])
  /\ (forall (level : string) (w : world os),
         forallb (fun e => negb (stopping opts e))
           (trace (check_builds opts (compilers_of opts) level
                     (num_jobs opts) (exit_on_err opts) w)) = true ->
         spawned (trace (check_builds opts (compilers_of opts) level
                           (num_jobs opts) (exit_on_err opts) w))
         = map (fun target =>
                  "devtools/test-build.sh" :: ("-j" +++ j)
                    :: (if String.eqb level "short" then ["-s"] else [])
                    ++ [target])
             two_compiler_matrix)
  /\ (forall (args : list string) (w : world os),
         build_type opts = "skip" ->
         count_program "devtools/test-build.sh" (trace (main opts args w))
         = 0%nat).
Proof.
  intros Hgcc Hclang Hjobs.
  assert (Hcompilers : compilers_of opts = ["gcc"; "clang"]).
  { unfold compilers_of. rewrite Hgcc, Hclang. reflexivity. }
  assert (Hany : forall (level : string) (w : world os),
             forallb (fun e => negb (stopping opts e))
               (trace (check_builds opts (compilers_of opts) level
                         (num_jobs opts) (exit_on_err opts) w)) = true ->
             spawned (trace (check_builds opts (compilers_of opts) level
                               (num_jobs opts) (exit_on_err opts) w))
             = map (fun target =>
                      "devtools/test-build.sh" :: ("-j" +++ j)
                        :: (if String.eqb level "short" then ["-s"] else [])
                        ++ [target])
                 two_compiler_matrix).
  { intros level w. rewrite Hcompilers, Hjobs. intros Hns.
    destruct (check_builds_spawned opts level j _ _ w Hns) as (_ & Hs).
    rewrite Hs. cbn [flat_map map two_compiler_matrix app].
    rewrite !test_build_cmd_head. reflexivity. }
  split; [|split; [exact Hany|]].
  - intros w Hfull Hns. rewrite (Hany _ w Hns), Hfull. reflexivity.
  - intros args w Hskip. apply no_build_count.
    now apply main_skip_no_build.
Qed.

Lemma build_matrix_order_witness :
  spawned (trace (check_builds (os := repo_os []) two_compilers_opts
                    (compilers_of two_compilers_opts)
                    (build_type two_compilers_opts)
                    (num_jobs two_compilers_opts)
                    (exit_on_err two_compilers_opts) 0%nat))
  = [ ["devtools/test-build.sh"; "-j4"; "x86_64-native-linuxapp-gcc"];
      ["devtools/test-build.sh"; "-j4"; "x86_64-native-linuxapp-gcc+shared"];
      ["devtools/test-build.sh"; "-j4"; "x86_64-native-linuxapp-clang"];
      ["devtools/test-build.sh"; "-j4"; "x86_64-native-linuxapp-clang+shared"] ].
Proof.
  pose proof (build_matrix_order (os := repo_os []) two_compilers_opts "4"
                eq_refl eq_refl eq_refl) as (Hfull & _ & _).
  apply (Hfull 0%nat eq_refl). vm_compute. reflexivity.
Defined.

(** ** The scratch directory of the patch-style check *)

(** C5. Once [mkdtemp] has created the scratch directory, every run of
    [check_patch] ends with the removal of that directory, whatever the
    checks did (passed, failed, exited under the policy or could not be
    launched).  When the removal succeeds or only finds the directory
    missing, the outcome is the one of the checks; any other removal
    error is raised.  The failed checks of the run are all reported. *)
Theorem check_patch_removes_scratch_dir {os : OS} (opts : options)
    (w : world os) (dir : string) :
  fst (mkdtemp os w) = inr dir ->
  let checks :=
    check_patch_checks opts dir
      (child_env_of (environ os (snd (mkdtemp os w)))) (snd (mkdtemp os w)) in
  let removal := fst (rmtree os dir (after checks)) in
  trace (check_patch opts w)
  = Mkdtemp (inr dir) :: trace checks ++ [Rmtree dir removal]
  /\ (removal = None \/ (exists msg, removal = Some (ENOENT, msg)) ->
      result (check_patch opts w) = result checks)
  /\ (forall errno msg,
         removal = Some (errno, msg) -> errno <> ENOENT ->
         result (check_patch opts w) = inl (OSError errno msg))
  /\ all_reported (trace (check_patch opts w)).
Proof.
  intros Hdir checks removal.
  split; [|split; [|split; [|apply check_patch_reported]]];
    subst removal checks;
    unfold check_patch, bind, tempfile_mkdtemp, os_environ_copy, try_finally,
      remove_temp_dir, try_except_else, shutil_rmtree, ret, raise;
    destruct (mkdtemp os w) as [[[errno0 msg0] | d] w1];
    simpl in Hdir; try discriminate; inversion Hdir; subst d; simpl;
    destruct (check_patch_checks opts dir (child_env_of (environ os w1)) w1)
      as [t w2 r]; simpl;
    destruct (rmtree os dir w2) as [[[errno msg] |] w3]; simpl.
  - destruct (errno =? ENOENT)%Z; simpl; now rewrite ?app_nil_r.
  - now rewrite ?app_nil_r.
  - intros [H | [m H]]; [discriminate|]. inversion H; subst. reflexivity.
  - reflexivity.
  - intros errno' msg' H Hne. inversion H; subst.
    apply Z.eqb_neq in Hne. now rewrite Hne.
  - intros errno' msg' H. discriminate.
Qed.

Lemma check_patch_removes_scratch_dir_witness :
  last (trace (check_patch (os := bad_patch_os) jobs4_opts 0%nat))
    (Out EmptyString)
  = Rmtree "/tmp/tmpXYZ" None
  /\ List.length
       (filter failed_check
          (trace (check_patch (os := bad_patch_os) jobs4_opts 0%nat)))
     = 1%nat
  /\ all_reported (trace (check_patch (os := bad_patch_os) jobs4_opts 0%nat)).
Proof.
  destruct (check_patch_removes_scratch_dir (os := bad_patch_os) jobs4_opts
              0%nat "/tmp/tmpXYZ" eq_refl) as (Htrace & _ & _ & Hrep).
  split; [rewrite Htrace; vm_compute; reflexivity|].
  split; [vm_compute; reflexivity | exact Hrep].
Defined.

(** ** Fatal conditions and the empty range *)

(** C9. When the repository directory is entered and [git log] prints
    nothing that names a revision, the run does nothing more: besides
    entering the directory its only event is the log query (no checkout,
    no check, no output), and it exits with status 0. *)
Theorem empty_range_is_a_no_op {os : OS} (opts : options)
    (start_ref end_ref : string) (rest : list string) (w : world os)
    (out : string) :
  result (enter_repo_dir opts w) = inr tt ->
  fst (spawn os (git_log_cmd start_ref end_ref) None
         (after (enter_repo_dir opts w)))
  = Completed 0 out ->
  findall out = [] ->
  trace (main opts (start_ref :: end_ref :: rest) w)
  = trace (enter_repo_dir opts w)
    ++ [Spawned (git_log_cmd start_ref end_ref) (Completed 0 out)]
  /\ result (main opts (start_ref :: end_ref :: rest) w) = inr tt
  /\ exit_status (result (main opts (start_ref :: end_ref :: rest) w)) = 0%Z.
Proof.
  intros Henter Hlog Hnone.
  assert (Hrun : trace (main opts (start_ref :: end_ref :: rest) w)
                 = trace (enter_repo_dir opts w)
                   ++ [Spawned (git_log_cmd start_ref end_ref)
                         (Completed 0 out)]
                 /\ result (main opts (start_ref :: end_ref :: rest) w)
                    = inr tt).
  { unfold main. rewrite trace_bind, result_bind, Henter.
    rewrite trace_bind, result_bind, get_commit_list_run.
    destruct (spawn os (git_log_cmd start_ref end_ref) None
                (after (enter_repo_dir opts w))) as [res w'].
    simpl in Hlog. subst res. simpl. rewrite Hnone. simpl. auto. }
  destruct Hrun as [Ht Hr]. rewrite Hr. auto.
Qed.

Lemma empty_range_is_a_no_op_witness :
  spawned (trace (main (os := empty_range_os) jobs4_opts range_args 0%nat))
  = [git_log_cmd "v1" "v2"]
  /\ exit_status
       (result (main (os := empty_range_os) jobs4_opts range_args 0%nat))
     = 0%Z.
Proof.
  destruct (empty_range_is_a_no_op (os := empty_range_os) jobs4_opts
              "v1" "v2" [] 0%nat EmptyString eq_refl eq_refl eq_refl)
    as (Htrace & _ & Hexit).
  split; [|exact Hexit].
  change range_args with ["v1"; "v2"]. rewrite Htrace. reflexivity.
Defined.

(** C6 (the code departs from it).  When [git log] exits with a non-zero
    status, [get_commit_list] raises [NameError] while it puts its
    message together: nothing is written to stderr, so the refs are not
    named; the exception ends the process with status 1. *)
Theorem failed_range_query_is_not_reported {os : OS}
    (start_ref end_ref : string) (w : world os) (rc : Z) (out : string) :
  fst (spawn os (git_log_cmd start_ref end_ref) None w) = Completed rc out ->
  rc <> 0%Z ->
  trace (get_commit_list start_ref end_ref w)
  = [Spawned (git_log_cmd start_ref end_ref) (Completed rc out)]
  /\ result (get_commit_list start_ref end_ref w) = inl (NameError "start")
  /\ exit_status (result (get_commit_list start_ref end_ref w)) = 1%Z.
Proof.
  intros Hlog Hrc. rewrite get_commit_list_run.
  destruct (spawn os (git_log_cmd start_ref end_ref) None w) as [res w'].
  simpl in Hlog. subst res. simpl.
  apply Z.eqb_neq in Hrc. rewrite Hrc. auto.
Qed.

Lemma failed_range_query_is_not_reported_witness :
  trace (main (os := bad_refs_os) (parse_args "/repo" []) range_args 0%nat)
  = [Chdir "/repo" None;
     Spawned (git_log_cmd "v1" "v2") (Completed 128 "fatal: bad revision")]
  /\ result (get_commit_list (os := bad_refs_os) "v1" "v2" 1%nat)
     = inl (NameError "start").
Proof.
  split; [vm_compute; reflexivity|].
  apply (failed_range_query_is_not_reported (os := bad_refs_os)
           "v1" "v2" 1%nat 128 "fatal: bad revision");
    [reflexivity | discriminate].
Defined.

(** C7 (the code departs from it).  When [git checkout] exits with a
    non-zero status, [checkout_commit_with_hash] raises [AttributeError]
    while it puts its message together: nothing is written to stderr, so
    neither the hash nor an error text is reported; the exception ends
    the process with status 1. *)
Theorem failed_checkout_is_not_reported {os : OS} (h : string)
    (w : world os) (rc : Z) (out : string) :
  fst (spawn os (checkout_cmd h) None w) = Completed rc out ->
  rc <> 0%Z ->
  trace (checkout_commit_with_hash h w)
  = [Spawned (checkout_cmd h) (Completed rc out)]
  /\ result (checkout_commit_with_hash h w) = inl (AttributeError "strerror")
  /\ exit_status (result (checkout_commit_with_hash h w)) = 1%Z.
Proof.
  intros Hco Hrc. unfold_stage.
  destruct (spawn os (checkout_cmd h) None w) as [res w'].
  simpl in Hco. subst res. apply Z.eqb_neq in Hrc. rewrite Hrc.
  simpl. auto.
Qed.

Lemma failed_checkout_is_not_reported_witness :
  result (checkout_commit_with_hash (os := repo_os ["git checkout"])
            "a1a1a1" 2%nat)
  = inl (AttributeError "strerror")
  /\ result (main (os := repo_os ["git checkout"]) jobs4_opts range_args 0%nat)
     = inl (AttributeError "strerror").
Proof.
  split; [|vm_compute; reflexivity].
  apply (failed_checkout_is_not_reported (os := repo_os ["git checkout"])
           "a1a1a1" 2%nat 1 "it failed");
    [reflexivity | discriminate].
Defined.

(** ** The default job count *)

Lemma store_keeps_num_jobs (given : list cli_option) :
  forallb (fun g => negb (is_num_jobs g)) given = true ->
  forall o, num_jobs (fold_left store given o) = num_jobs o.
Proof.
  induction given as [|g given IH]; intros H o; [reflexivity|].
  simpl in H. apply andb_true_iff in H as [Hg H]. simpl.
  rewrite (IH H). destruct g; try reflexivity. discriminate.
Qed.

(** C10 (the code departs from it).  When [-j] is not given, [num_jobs]
    is the integer default and every call of [run_test_build] raises
    [TypeError] while it puts [-j] together, before any command runs. *)
Theorem default_num_jobs_breaks_every_build {os : OS} (cwd : string)
    (given : list cli_option) (build_type arch_str : string) (w : world os) :
  forallb (fun g => negb (is_num_jobs g)) given = true ->
  run_test_build (parse_args cwd given) build_type arch_str
    (num_jobs (parse_args cwd given)) w
  = Outcome [] w
      (inl (TypeError "cannot concatenate 'str' and 'int' objects")).
Proof.
  intros Hgiven. unfold parse_args.
  rewrite (store_keeps_num_jobs given Hgiven). reflexivity.
Qed.

Lemma default_num_jobs_breaks_every_build_witness :
  result (main (os := repo_os []) (parse_args "/repo" []) range_args 0%nat)
  = inl (TypeError "cannot concatenate 'str' and 'int' objects")
  /\ spawned (trace (main (os := repo_os []) (parse_args "/repo" [])
                       range_args 0%nat))
     = [git_log_cmd "v1" "v2"; checkout_cmd "a1a1a1"; check_git_log_cmd]
  /\ result (run_test_build (os := repo_os []) (parse_args "/repo" [])
               "full" "x86_64-native-linuxapp-gcc"
               (num_jobs (parse_args "/repo" [])) 4%nat)
     = inl (TypeError "cannot concatenate 'str' and 'int' objects").
Proof.
  split; [vm_compute; reflexivity|].
  split; [vm_compute; reflexivity|].
  rewrite (default_num_jobs_breaks_every_build (os := repo_os []) "/repo" []
             "full" "x86_64-native-linuxapp-gcc" 4%nat eq_refl).
  reflexivity.
Defined.

(** * Further properties of the script *)

(** ** Sequencing with the compilers of the run *)

Section SequentialAt.
Context {os : OS}.
Variable opts : options.
Variable compilers : list string.
Variable P : forall A : Type, outcome (world os) A -> Prop.
Hypothesis P_ret : forall A (a : A) w, P A (ret a w).
Hypothesis P_write : forall s w, P unit (stdout_write s w).
Hypothesis P_bind :
  forall A B (m : M os A) (f : A -> M os B) w,
    P A (m w) -> (forall a w', P B (f a w')) -> P B (bind m f w).
Hypothesis P_checkout : forall h w, P unit (checkout_commit_with_hash h w).
Hypothesis P_msg :
  String.eqb (run_checkgitlog opts) "yes" = true ->
  forall w, P unit (check_git_log opts w).
Hypothesis P_builds :
  negb (String.eqb (build_type opts) "skip") = true ->
  forall w,
    P unit (check_builds opts compilers (build_type opts) (num_jobs opts)
              (exit_on_err opts) w).
Hypothesis P_patch :
  String.eqb (run_checkpatch opts) "yes" = true ->
  forall w, P unit (check_patch opts w).

(** Like [main_loop_seq], for one list of compilers and with the stages
    that the options switch off left out. *)
Lemma main_loop_seq_at :
  forall cs i w, P unit (main_loop opts compilers i cs w).
Proof.
  induction cs as [|c cs IH]; intros i w; simpl.
  - apply P_ret.
  - apply P_bind; [destruct (0 <? i)%nat; [apply P_write | apply P_ret]|].
    intros _ w1. apply P_bind; [apply P_write|].
    intros _ w2. apply P_bind; [apply P_checkout|].
    intros _ w3. apply P_bind.
    { destruct (String.eqb (run_checkgitlog opts) "yes") eqn:E;
        [now apply P_msg | apply P_ret]. }
    intros _ w4. apply P_bind.
    { destruct (negb (String.eqb (build_type opts) "skip")) eqn:E;
        [now apply P_builds | apply P_ret]. }
    intros _ w5. apply P_bind.
    { destruct (String.eqb (run_checkpatch opts) "yes") eqn:E;
        [now apply P_patch | apply P_ret]. }
    intros _ w6. apply IH.
Qed.
End SequentialAt.

Section MainAt.
Context {os : OS}.
Variable opts : options.
Variable P : forall A : Type, outcome (world os) A -> Prop.
Hypothesis P_ret : forall A (a : A) w, P A (ret a w).
Hypothesis P_exit : forall A w, P A (sys_exit 1 w).
Hypothesis P_write : forall s w, P unit (stdout_write s w).
Hypothesis P_bind :
  forall A B (m : M os A) (f : A -> M os B) w,
    P A (m w) -> (forall a w', P B (f a w')) -> P B (bind m f w).
Hypothesis P_checkout : forall h w, P unit (checkout_commit_with_hash h w).
Hypothesis P_msg :
  String.eqb (run_checkgitlog opts) "yes" = true ->
  forall w, P unit (check_git_log opts w).
Hypothesis P_builds :
  negb (String.eqb (build_type opts) "skip") = true ->
  forall w,
    P unit (check_builds opts (compilers_of opts) (build_type opts)
              (num_jobs opts) (exit_on_err opts) w).
Hypothesis P_patch :
  String.eqb (run_checkpatch opts) "yes" = true ->
  forall w, P unit (check_patch opts w).
Hypothesis P_enter : forall w, P unit (enter_repo_dir opts w).
Hypothesis P_log : forall s e w, P _ (get_commit_list s e w).

Lemma main_seq_at (args : list string) (w : world os) :
  P unit (main opts args w).
Proof.
  unfold main. destruct args as [|s [|e rest]].
  - apply P_bind; [|intros; apply P_exit].
    apply P_bind; [apply P_write | intros; apply P_write].
  - apply P_bind; [|intros; apply P_exit].
    apply P_bind; [apply P_write | intros; apply P_write].
  - apply P_bind; [apply P_enter|]. intros _ w1.
    apply P_bind; [apply P_log|]. intros cs w2.
    now apply main_loop_seq_at.
Qed.
End MainAt.

(** ** Usage and the repository directory *)

(** X1. With fewer than two positional arguments [main] only prints the
    usage (the text, then the newline of [print]) and exits with status
    1: no directory is entered and no command is run. *)
Theorem too_few_arguments_print_usage {os : OS} (opts : options)
    (args : list string) (w : world os) :
  (List.length args < 2)%nat ->
  main opts args w = Outcome [Out usage_text; Out nl] w (inl (SystemExit 1)).
Proof.
  intros Hlen. destruct args as [|s [|e rest]]; [reflexivity | reflexivity |].
  simpl in Hlen. lia.
Qed.

Lemma too_few_arguments_print_usage_witness :
  main (os := repo_os []) jobs4_opts ["v1"] 0%nat
  = Outcome [Out usage_text; Out nl] 0%nat (inl (SystemExit 1)).
Proof.
  apply (too_few_arguments_print_usage (os := repo_os []) jobs4_opts ["v1"]).
  simpl. lia.
Defined.

(** X2. When the repository directory cannot be entered, [main] writes
    one error line with the text of the error and the directory, exits
    with status 1 and runs no command. *)
Theorem failed_chdir_is_reported {os : OS} (opts : options)
    (start_ref end_ref : string) (rest : list string) (w : world os)
    (errno : Z) (msg : string) :
  repo_dir opts <> EmptyString ->
  fst (chdir os (repo_dir opts) w) = Some (errno, msg) ->
  trace (main opts (start_ref :: end_ref :: rest) w)
  = [ Chdir (repo_dir opts) (Some (errno, msg));
      Err (("Error: Could not change to repo directory: " +++ msg)
           +++ ": " +++ repo_dir opts +++ nl) ]
  /\ result (main opts (start_ref :: end_ref :: rest) w)
     = inl (SystemExit 1).
Proof.
  intros Hdir Hch. apply String.eqb_neq in Hdir.
  unfold main. rewrite trace_bind, result_bind.
  unfold enter_repo_dir. rewrite Hdir. unfold_stage.
  destruct (chdir os (repo_dir opts) w) as [res w'].
  simpl in Hch. subst res. simpl. auto.
Qed.

Lemma failed_chdir_is_reported_witness :
  spawned (trace (main (os := missing_dir_os) jobs4_opts range_args 0%nat))
  = []
  /\ result (main (os := missing_dir_os) jobs4_opts range_args 0%nat)
     = inl (SystemExit 1).
Proof.
  destruct (failed_chdir_is_reported (os := missing_dir_os) jobs4_opts
              "v1" "v2" [] 0%nat 2 "No such file or directory")
    as [Htrace Hres].
  - discriminate.
  - reflexivity.
  - change range_args with ["v1"; "v2"]. rewrite Htrace. auto.
Defined.

(** ** Exit statuses *)

Ltac exits_stage :=
  intros; unfold exits_0_or_1; unfold_stage; split_answers; simpl; auto.

Section ExitStatus.
Context {os : OS}.
Variable opts : options.

Lemma exits_bind {A B} (m : M os A) (f : A -> M os B) (w : world os) :
  exits_0_or_1 (m w) -> (forall a w', exits_0_or_1 (f a w')) ->
  exits_0_or_1 (bind m f w).
Proof.
  unfold exits_0_or_1. intros Hm Hf. rewrite result_bind.
  destruct (result (m w)) as [x | a]; [exact Hm | apply Hf].
Qed.

Lemma enter_repo_dir_exits (w : world os) :
  exits_0_or_1 (enter_repo_dir opts w).
Proof.
  unfold enter_repo_dir. destruct (String.eqb (repo_dir opts) EmptyString);
    exits_stage.
Qed.

Lemma get_commit_list_exits (s e : string) (w : world os) :
  exits_0_or_1 (get_commit_list s e w).
Proof. exits_stage. Qed.

Lemma checkout_exits (h : string) (w : world os) :
  exits_0_or_1 (checkout_commit_with_hash h w).
Proof. exits_stage. Qed.

Lemma check_git_log_exits (w : world os) :
  exits_0_or_1 (check_git_log opts w).
Proof. destruct (exit_on_err opts) eqn:Hpol; exits_stage. Qed.

Lemma run_test_build_exits (bt arch : string) (n : pyval) (w : world os) :
  exits_0_or_1 (run_test_build opts bt arch n w).
Proof. destruct (exit_on_err opts) eqn:Hpol; destruct n; exits_stage. Qed.

Lemma check_patch_exits (w : world os) :
  exits_0_or_1 (check_patch opts w).
Proof. destruct (exit_on_err opts) eqn:Hpol; exits_stage. Qed.
End ExitStatus.

(** X3. From the return of [parser.parse_args()] on, whatever the parsed
    options, the arguments and the world, [main] ends the process with
    status 0 or 1: the script itself never exits with another status
    (the status 2 of a command line that [optparse] refuses comes before). *)
Theorem exit_status_is_0_or_1 {os : OS} (opts : options)
    (args : list string) (w : world os) :
  exit_status (result (main opts args w)) = 0%Z
  \/ exit_status (result (main opts args w)) = 1%Z.
Proof.
  apply (main_seq opts (fun A o => exits_0_or_1 o)).
  - intros; now left.
  - intros; now right.
  - intros; now left.
  - intros; now apply exits_bind.
  - intros; apply checkout_exits.
  - intros; apply check_git_log_exits.
  - apply (build_stage_seq opts (fun A o => exits_0_or_1 o)).
    + intros; now left.
    + intros; now apply exits_bind.
    + intros; apply run_test_build_exits.
  - intros; apply check_patch_exits.
  - intros; apply enter_repo_dir_exits.
  - intros; apply get_commit_list_exits.
Qed.

(** ** Stages that are switched off *)

Section SwitchedOff.
Context {os : OS}.
Variable opts : options.

Lemma enter_repo_dir_no_message (w : world os) :
  quiet is_message_check_event (enter_repo_dir opts w).
Proof.
  unfold enter_repo_dir. destruct (String.eqb (repo_dir opts) EmptyString);
    listed_stage.
Qed.

Lemma get_commit_list_no_message (s e : string) (w : world os) :
  quiet is_message_check_event (get_commit_list s e w).
Proof. listed_stage. Qed.

Lemma checkout_no_message (h : string) (w : world os) :
  quiet is_message_check_event (checkout_commit_with_hash h w).
Proof. listed_stage. Qed.

Lemma run_test_build_no_message (bt arch : string) (n : pyval) (w : world os) :
  quiet is_message_check_event (run_test_build opts bt arch n w).
Proof. destruct (exit_on_err opts) eqn:Hpol; destruct n; listed_stage. Qed.

Lemma check_patch_no_message (w : world os) :
  quiet is_message_check_event (check_patch opts w).
Proof. destruct (exit_on_err opts) eqn:Hpol; listed_stage. Qed.

Lemma enter_repo_dir_no_patch (w : world os) :
  quiet is_patch_event (enter_repo_dir opts w).
Proof.
  unfold enter_repo_dir. destruct (String.eqb (repo_dir opts) EmptyString);
    listed_stage.
Qed.

Lemma get_commit_list_no_patch (s e : string) (w : world os) :
  quiet is_patch_event (get_commit_list s e w).
Proof. listed_stage. Qed.

Lemma checkout_no_patch (h : string) (w : world os) :
  quiet is_patch_event (checkout_commit_with_hash h w).
Proof. listed_stage. Qed.

Lemma check_git_log_no_patch (w : world os) :
  quiet is_patch_event (check_git_log opts w).
Proof. destruct (exit_on_err opts) eqn:Hpol; listed_stage. Qed.

Lemma run_test_build_no_patch (bt arch : string) (n : pyval) (w : world os) :
  quiet is_patch_event (run_test_build opts bt arch n w).
Proof. destruct (exit_on_err opts) eqn:Hpol; destruct n; listed_stage. Qed.

Lemma check_builds_quiet (q : event -> bool) :
  (forall bt arch n (w : world os),
      quiet q (run_test_build opts bt arch n w)) ->
  forall compilers bt n eoe (w : world os),
    quiet q (check_builds opts compilers bt n eoe w).
Proof.
  intros Hbuild.
  apply (check_builds_seq opts (fun A o => quiet q o)).
  - reflexivity.
  - intros; now apply quiet_bind.
  - exact Hbuild.
Qed.
End SwitchedOff.

(** X4. Unless [--run-checkgitlog] is [yes], no run ever launches the
    message-style check. *)
Theorem message_check_switched_off {os : OS} (opts : options)
    (args : list string) (w : world os) :
  run_checkgitlog opts <> "yes" ->
  forallb (fun e => negb (is_message_check_event e))
    (trace (main opts args w)) = true.
Proof.
  intros Hoff. apply String.eqb_neq in Hoff.
  apply (main_seq_at opts (fun A o => quiet is_message_check_event o)).
  - reflexivity.
  - reflexivity.
  - reflexivity.
  - intros; now apply quiet_bind.
  - intros; apply checkout_no_message.
  - intros Hon. rewrite Hon in Hoff. discriminate.
  - intros _ w'. apply check_builds_quiet.
    intros; apply run_test_build_no_message.
  - intros; apply check_patch_no_message.
  - intros; apply enter_repo_dir_no_message.
  - intros; apply get_commit_list_no_message.
Qed.

Lemma message_check_switched_off_witness :
  count_program "devtools/check-git-log.sh"
    (trace (main (os := repo_os []) no_message_opts range_args 0%nat))
  = 0%nat
  /\ forallb (fun e => negb (is_message_check_event e))
       (trace (main (os := repo_os []) no_message_opts range_args 0%nat))
     = true.
Proof.
  split; [vm_compute; reflexivity|].
  apply (message_check_switched_off (os := repo_os []) no_message_opts).
  discriminate.
Defined.

(** X5. Unless [--run-checkpatch] is [yes], no run ever creates or
    removes a scratch directory, generates a patch or launches the
    patch-style checker. *)
Theorem patch_check_switched_off {os : OS} (opts : options)
    (args : list string) (w : world os) :
  run_checkpatch opts <> "yes" ->
  forallb (fun e => negb (is_patch_event e)) (trace (main opts args w)) = true.
Proof.
  intros Hoff. apply String.eqb_neq in Hoff.
  apply (main_seq_at opts (fun A o => quiet is_patch_event o)).
  - reflexivity.
  - reflexivity.
  - reflexivity.
  - intros; now apply quiet_bind.
  - intros; apply checkout_no_patch.
  - intros; apply check_git_log_no_patch.
  - intros _ w'. apply check_builds_quiet.
    intros; apply run_test_build_no_patch.
  - intros Hon. rewrite Hon in Hoff. discriminate.
  - intros; apply enter_repo_dir_no_patch.
  - intros; apply get_commit_list_no_patch.
Qed.

Lemma patch_check_switched_off_witness :
  programs (trace (main (os := repo_os []) no_patch_opts ["v1"; "v2"] 0%nat))
  = "git log"
    :: flat_map (fun _ : string =>
                   [ "git checkout"; "devtools/check-git-log.sh";
                     "devtools/test-build.sh"; "devtools/test-build.sh" ])
         ["a1a1a1"; "b2b2b2"; "c3c3c3"]
  /\ forallb (fun e => negb (is_patch_event e))
       (trace (main (os := repo_os []) no_patch_opts ["v1"; "v2"] 0%nat))
     = true.
Proof.
  split; [vm_compute; reflexivity|].
  apply (patch_check_switched_off (os := repo_os []) no_patch_opts).
  discriminate.
Defined.

(** X6. With neither gcc nor clang enabled no run ever launches a build,
    whatever the build type and the job count. *)
Theorem no_compiler_no_build {os : OS} (opts : options)
    (args : list string) (w : world os) :
  use_gcc opts <> "yes" ->
  use_clang opts <> "yes" ->
  forallb (fun e => negb (is_build_event e)) (trace (main opts args w)) = true.
Proof.
  intros Hgcc Hclang.
  apply String.eqb_neq in Hgcc. apply String.eqb_neq in Hclang.
  assert (Hnone : compilers_of opts = []).
  { unfold compilers_of. now rewrite Hgcc, Hclang. }
  apply (main_seq_at opts (fun A o => quiet is_build_event o)).
  - reflexivity.
  - reflexivity.
  - reflexivity.
  - intros; now apply quiet_bind.
  - intros; apply checkout_no_build.
  - intros; apply check_git_log_no_build.
  - intros _ w'. rewrite Hnone. reflexivity.
  - intros; apply check_patch_no_build.
  - intros; apply enter_repo_dir_no_build.
  - intros; apply get_commit_list_no_build.
Qed.

Lemma no_compiler_no_build_witness :
  result (main (os := repo_os []) no_compiler_opts range_args 0%nat) = inr tt
  /\ forallb (fun e => negb (is_build_event e))
       (trace (main (os := repo_os []) no_compiler_opts range_args 0%nat))
     = true.
Proof.
  split; [vm_compute; reflexivity|].
  apply (no_compiler_no_build (os := repo_os []) no_compiler_opts);
    discriminate.
Defined.

(** ** More on the patch-style check *)

(** X7. When the scratch directory cannot be created, [check_patch]
    raises the [OSError] of [mkdtemp] at once: no patch is generated, no
    checker is run and no removal is attempted. *)
Theorem failed_mkdtemp_propagates {os : OS} (opts : options) (w : world os)
    (errno : Z) (msg : string) :
  fst (mkdtemp os w) = inl (errno, msg) ->
  check_patch opts w
  = Outcome [Mkdtemp (inl (errno, msg))] (snd (mkdtemp os w))
      (inl (OSError errno msg)).
Proof.
  intros Hmk. unfold_stage.
  destruct (mkdtemp os w) as [res w']. simpl in Hmk. subst res. reflexivity.
Qed.

Lemma failed_mkdtemp_propagates_witness :
  check_patch (os := full_tmp_os) jobs4_opts 5%nat
  = Outcome [Mkdtemp (inl (28%Z, "No space left on device"))] 6%nat
      (inl (OSError 28 "No space left on device")).
Proof.
  apply (failed_mkdtemp_propagates (os := full_tmp_os) jobs4_opts 5%nat).
  reflexivity.
Defined.

Lemma find_app {X} (f : X -> bool) (l l' : list X) :
  find f (l ++ l')
  = match find f l with
    | Some x => Some x
    | None => find f l'
    end.
Proof.
  induction l as [|x l IH]; [reflexivity|].
  simpl. destruct (f x); [reflexivity | exact IH].
Qed.

Lemma has_key_env_get (key : string) (env : environment) :
  has_key key env = match env_get key env with
                    | Some _ => true
                    | None => false
                    end.
Proof.
  unfold has_key, env_get. induction env as [|b env IH]; [reflexivity|].
  simpl. destruct (String.eqb (fst b) key); [reflexivity | exact IH].
Qed.

(** X8. The environment handed to the checker always binds
    [DPDK_CHECKPATCH_PATH]: to the value of the process environment when
    there is one, to the built-in path otherwise; every other variable is
    passed on unchanged. *)
Theorem child_env_binds_checkpatch_path (env : environment) :
  env_get checkpatch_key (child_env_of env)
  = match env_get checkpatch_key env with
    | Some path => Some path
    | None => Some checkpatch_default
    end
  /\ (forall name,
         name <> checkpatch_key ->
         env_get name (child_env_of env) = env_get name env).
Proof.
  unfold child_env_of. rewrite has_key_env_get.
  destruct (env_get checkpatch_key env) as [path|] eqn:E; simpl.
  - rewrite E. auto.
  - split.
    + unfold env_get in *. rewrite find_app.
      destruct (find _ env); [discriminate | reflexivity].
    + intros name Hname. unfold env_get. rewrite find_app.
      destruct (find _ env); [reflexivity|]. cbn [find fst].
      apply String.eqb_neq in Hname. rewrite String.eqb_sym in Hname.
      now rewrite Hname.
Qed.

(** X9. Once the scratch directory exists and [git format-patch]
    succeeded, the checker is launched on the file name git printed,
    stripped of its trailing blanks, and with the environment of X8. *)
Theorem checker_runs_on_generated_patch {os : OS} (opts : options)
    (w : world os) (dir out : string) :
  fst (mkdtemp os w) = inr dir ->
  fst (spawn os (format_patch_cmd dir) None (snd (mkdtemp os w)))
  = Completed 0 out ->
  exists tail,
    trace (check_patch opts w)
    = Mkdtemp (inr dir)
      :: Spawned (format_patch_cmd dir) (Completed 0 out)
      :: Out (running_msg (check_patch_cmd (rstrip out)))
      :: Spawned (check_patch_cmd (rstrip out))
           (fst (spawn os (check_patch_cmd (rstrip out))
                   (Some (child_env_of (environ os (snd (mkdtemp os w)))))
                   (snd (spawn os (format_patch_cmd dir) None
                           (snd (mkdtemp os w))))))
      :: tail.
Proof.
  intros Hmk Hfp. unfold_stage.
  destruct (mkdtemp os w) as [res w1]. simpl in Hmk, Hfp |- *. subst res.
  project.
  destruct (spawn os (format_patch_cmd dir) None w1) as [res w2].
  simpl in Hfp |- *. subst res. project. simpl Z.eqb. project.
  destruct (spawn os (check_patch_cmd (rstrip out))
              (Some (child_env_of (environ os w1))) w2) as [res w3].
  simpl fst.
  destruct (exit_on_err opts); destruct res as [rc o | errno msg];
    [destruct (rc =? 0)%Z | | destruct (rc =? 0)%Z |]; project;
    split_answers; eexists; reflexivity.
Qed.

Lemma checker_runs_on_generated_patch_witness :
  exists tail,
    trace (check_patch (os := needs_checkpatch_path_os) jobs4_opts 0%nat)
    = Mkdtemp (inr "/tmp/tmpXYZ")
      :: Spawned (format_patch_cmd "/tmp/tmpXYZ")
           (Completed 0 ("/tmp/tmpXYZ/0001-change.patch" +++ nl))
      :: Out (running_msg (check_patch_cmd "/tmp/tmpXYZ/0001-change.patch"))
      :: Spawned (check_patch_cmd "/tmp/tmpXYZ/0001-change.patch")
           (Completed 0 "fine")
      :: tail.
Proof.
  exact (checker_runs_on_generated_patch (os := needs_checkpatch_path_os)
           jobs4_opts 0%nat "/tmp/tmpXYZ"
           ("/tmp/tmpXYZ/0001-change.patch" +++ nl) eq_refl eq_refl).
Defined.

(** X10. When [git format-patch] itself fails, the failure is reported
    like a failed check (without a [Running:] line), the checker is never
    launched, and the policy decides whether the process exits. *)
Theorem failed_format_patch_skips_checker {os : OS} (opts : options)
    (dir : string) (env : environment) (w : world os) (rc : Z) (out : string) :
  fst (spawn os (format_patch_cmd dir) None w) = Completed rc out ->
  rc <> 0%Z ->
  trace (check_patch_checks opts dir env w)
  = [ Spawned (format_patch_cmd dir) (Completed rc out);
      Out ("Failed." +++ nl);
      Err ((("Output:" +++ nl) +++ out) +++ nl) ]
  /\ result (check_patch_checks opts dir env w)
     = if exit_on_err opts then inl (SystemExit 1) else inr tt.
Proof.
  intros Hfp Hrc. apply Z.eqb_neq in Hrc. unfold_stage.
  destruct (spawn os (format_patch_cmd dir) None w) as [res w1].
  simpl in Hfp. subst res. project. rewrite Hrc. project.
  destruct (exit_on_err opts); project; auto.
Qed.

Lemma failed_format_patch_skips_checker_witness :
  programs (trace (check_patch (os := repo_os ["git format-patch"])
                     jobs4_opts 0%nat))
  = ["git format-patch"]
  /\ result (check_patch_checks (os := repo_os ["git format-patch"])
               jobs4_opts "/tmp/tmpXYZ" [] 1%nat)
     = inr tt.
Proof.
  split; [vm_compute; reflexivity|].
  destruct (failed_format_patch_skips_checker
              (os := repo_os ["git format-patch"]) jobs4_opts "/tmp/tmpXYZ"
              [] 1%nat 1 "it failed" eq_refl) as [_ Hres];
    [discriminate | exact Hres].
Defined.

(** ** Commands that cannot be launched *)

(** X11. When [devtools/check-git-log.sh] cannot be launched, the
    message-style check ends its progress line, writes a hint about the
    working directory to stderr and exits with status 1, whatever the
    policy. *)
Theorem unlaunchable_message_check_gives_hint {os : OS} (opts : options)
    (w : world os) (errno : Z) (msg : string) :
  fst (spawn os check_git_log_cmd None w) = LaunchFail errno msg ->
  trace (check_git_log opts w)
  = [ Out (running_msg check_git_log_cmd);
      Spawned check_git_log_cmd (LaunchFail errno msg);
      Out nl;
      Err ("Error: Couldn't run check-git-log.sh. Are you in "
           +++ "the root dir of the repo?" +++ nl) ]
  /\ result (check_git_log opts w) = inl (SystemExit 1).
Proof.
  intros Hsp. unfold_stage.
  destruct (spawn os check_git_log_cmd None w) as [res w1].
  simpl in Hsp. subst res. project. auto.
Qed.

Lemma unlaunchable_message_check_gives_hint_witness :
  result (check_git_log (os := outside_repo_os) jobs4_opts 3%nat)
  = inl (SystemExit 1)
  /\ spawned (trace (main (os := outside_repo_os) jobs4_opts range_args 0%nat))
     = [git_log_cmd "v1" "v2"; checkout_cmd "a1a1a1"; check_git_log_cmd].
Proof.
  split; [|vm_compute; reflexivity].
  apply (unlaunchable_message_check_gives_hint (os := outside_repo_os)
           jobs4_opts 3%nat 2 "No such file or directory").
  reflexivity.
Defined.

(** X12. A build that cannot be launched is not handled: after the
    progress line [run_test_build] lets the [OSError] through, with its
    errno and text, and nothing is written to stderr. *)
Theorem unlaunchable_build_raises_oserror {os : OS} (opts : options)
    (build_type arch_str j : string) (w : world os) (errno : Z)
    (msg : string) :
  fst (spawn os (test_build_cmd build_type arch_str ("-j" +++ j)) None w)
  = LaunchFail errno msg ->
  trace (run_test_build opts build_type arch_str (PyStr j) w)
  = [ Out (running_msg (test_build_cmd build_type arch_str ("-j" +++ j)));
      Spawned (test_build_cmd build_type arch_str ("-j" +++ j))
        (LaunchFail errno msg) ]
  /\ result (run_test_build opts build_type arch_str (PyStr j) w)
     = inl (OSError errno msg).
Proof.
  intros Hsp. unfold_stage.
  destruct (spawn os (test_build_cmd build_type arch_str ("-j" +++ j)) None w)
    as [res w1].
  simpl in Hsp. subst res. project. auto.
Qed.

Lemma unlaunchable_build_raises_oserror_witness :
  result (run_test_build (os := broken_tool_os) jobs4_opts "full"
            "x86_64-native-linuxapp-gcc" (PyStr "4") 4%nat)
  = inl (OSError 2 "No such file or directory").
Proof.
  apply (unlaunchable_build_raises_oserror (os := broken_tool_os) jobs4_opts
           "full" "x86_64-native-linuxapp-gcc" "4" 4%nat 2
           "No such file or directory").
  reflexivity.
Defined.

(** ** More on the parsing of the log *)

Lemma span_forallb (p : ascii -> bool) (s : string) :
  string_forallb p (fst (span p s)) = true.
Proof.
  induction s as [|c s IH]; [reflexivity|].
  simpl. destruct (p c) eqn:E; [|reflexivity].
  destruct (span p s) as [a b]. simpl in *. now rewrite E, IH.
Qed.

Lemma match_here_wf (s h sub rest : string) (bol : bool) :
  match_here s = Some (h, sub, bol, rest) -> wf_rev (h, sub) = true.
Proof.
  unfold match_here. intros H.
  pose proof (span_forallb (fun c => negb (is_space c)) s) as Hh.
  destruct (span (fun c => negb (is_space c)) s) as [[|h0 h'] [|c r]];
    try discriminate.
  pose proof (span_forallb (fun c => negb (is_newline c)) r) as Hs.
  destruct (span (fun c => negb (is_newline c)) r) as [sub' rest'].
  inversion H; subst. unfold wf_rev. cbn [fst snd] in *.
  now rewrite Hh, Hs.
Qed.

Lemma findall_aux_wf (fuel : nat) :
  forall (bol : bool) (s : string),
    forallb wf_rev (findall_aux fuel bol s) = true.
Proof.
  induction fuel as [|fuel IH]; intros bol s; [reflexivity|].
  cbn [findall_aux].
  destruct (if bol then match_here s else None)
    as [[[[h sub] bol'] rest]|] eqn:E.
  - destruct bol; [|discriminate].
    cbn [forallb]. now rewrite (match_here_wf _ _ _ _ _ E), IH.
  - destruct s; [reflexivity | apply IH].
Qed.

(** X13. Whatever [git log] printed, every revision [get_commit_list]
    returns has a non-empty hash without blanks and a subject without a
    newline: the hash handed to [git checkout] is always one word. *)
Theorem resolved_revisions_are_well_formed {os : OS}
    (start_ref end_ref : string) (w : world os)
    (commits : list (string * string)) :
  result (get_commit_list start_ref end_ref w) = inr commits ->
  forallb wf_rev commits = true.
Proof.
  rewrite get_commit_list_run.
  destruct (spawn os (git_log_cmd start_ref end_ref) None w)
    as [[rc out | errno msg] w']; simpl; [|discriminate].
  destruct (rc =? 0)%Z; [|discriminate].
  intros H. inversion H; subst commits.
  apply forallb_forall. intros r Hr. apply in_rev in Hr.
  pose proof (findall_aux_wf (S (String.length out)) true out) as Hwf.
  rewrite forallb_forall in Hwf. now apply Hwf.
Qed.

Lemma resolved_revisions_are_well_formed_witness :
  forallb wf_rev (rev three_commits) = true.
Proof.
  apply (resolved_revisions_are_well_formed (os := repo_os []) "v1" "v2"
           1%nat).
  reflexivity.
Defined.

(** Past a position where [^] does not hold, the scan moves to the next
    line. *)
Lemma skip_to_eol (rest : string) :
  forall (l : string) (fuel : nat),
    string_forallb (fun c => negb (is_newline c)) l = true ->
    (String.length l < fuel)%nat ->
    findall_aux fuel false (l +++ String nl_char rest)
    = findall_aux (fuel - S (String.length l)) true rest.
Proof.
  induction l as [|c l IH]; intros fuel Hl Hfuel.
  - destruct fuel as [|fuel]; [simpl in Hfuel; lia|].
    cbn [findall_aux String.append String.length].
    change (is_newline nl_char) with true.
    now replace (S fuel - 1)%nat with fuel by lia.
  - simpl in Hl. apply andb_true_iff in Hl as [Hc Hl].
    destruct fuel as [|fuel]; [simpl in Hfuel; lia|].
    cbn [findall_aux String.append String.length].
    apply negb_true_iff in Hc. rewrite Hc.
    simpl in Hfuel. rewrite IH by (assumption || lia).
    reflexivity.
Qed.

Lemma span_blank_first (c : ascii) (s : string) :
  is_space c = true -> match_here (String c s) = None.
Proof. intros Hc. unfold match_here. simpl. now rewrite Hc. Qed.

(** A line that is empty or starts with a blank, at a position where a
    line starts, is skipped. *)
Lemma findall_blank_led_then (line rest : string) :
  blank_led line = true ->
  findall (line +++ nl +++ rest) = findall rest.
Proof.
  unfold blank_led. intros H. apply andb_true_iff in H as [Hline Hblank].
  unfold findall.
  change (nl +++ rest) with (String nl_char rest).
  set (parsed := findall_aux (S (String.length rest)) true rest).
  destruct line as [|c l].
  - cbn [String.append String.length findall_aux].
    rewrite span_blank_first by reflexivity.
    change (is_newline nl_char) with true. reflexivity.
  - simpl in Hline. apply andb_true_iff in Hline as [Hc Hl].
    remember (String.length (String c l +++ String nl_char rest)) as n eqn:Hn.
    cbn [findall_aux]. cbn [String.append].
    rewrite (span_blank_first c _ Hblank).
    apply negb_true_iff in Hc. rewrite Hc.
    assert (Hlen : n = S (String.length l + S (String.length rest))).
    { subst n. cbn [String.append String.length].
      now rewrite append_length. }
    rewrite skip_to_eol by (assumption || lia).
    subst parsed. apply findall_aux_fuel; lia.
Qed.

Lemma findall_line_then (r : string * string) (rest : string) :
  wf_rev r = true ->
  findall (log_line r +++ nl +++ rest) = r :: findall rest.
Proof.
  intros Hr. unfold findall.
  change (nl +++ rest) with (String nl_char rest).
  set (parsed := findall_aux (S (String.length rest)) true rest).
  remember (String.length (log_line r +++ String nl_char rest)) as n eqn:Hn.
  cbn [findall_aux].
  rewrite (match_here_log_line r (String nl_char rest) Hr) by reflexivity.
  destruct r as [h sub]. cbn [fst snd]. f_equal.
  assert (Hlen : (String.length rest + 3 <= n)%nat).
  { subst n. rewrite append_length. unfold log_line.
    rewrite append_length. cbn [fst snd String.length String.append].
    destruct (wf_rev_parts _ Hr) as (Hne & _ & _). cbn [fst] in Hne.
    destruct h; [contradiction|]. simpl. lia. }
  destruct n as [|n]; [lia|].
  cbn [findall_aux]. change (is_newline nl_char) with true.
  subst parsed. apply findall_aux_fuel; lia.
Qed.

(** X15. A final newline after the last line of the log changes
    nothing: the revisions parsed are those git printed, in git's order. *)
Theorem trailing_newline_is_harmless (revs : list (string * string)) :
  forallb wf_rev revs = true ->
  findall (render_log revs +++ nl) = revs.
Proof.
  induction revs as [|r revs IH]; intros Hwf; [reflexivity|].
  simpl in Hwf. apply andb_true_iff in Hwf as [Hr Hwf].
  rewrite render_log_cons. destruct revs as [|r' revs'].
  - rewrite append_assoc.
    change (EmptyString +++ nl) with (nl +++ EmptyString).
    rewrite (findall_line_then r EmptyString Hr). reflexivity.
  - rewrite !append_assoc.
    rewrite (findall_line_then r _ Hr). f_equal. now apply IH.
Qed.

Lemma trailing_newline_is_harmless_witness :
  findall (render_log three_commits +++ nl) = three_commits.
Proof.
  apply (trailing_newline_is_harmless three_commits). reflexivity.
Defined.

(** Past a position where [^] does not hold, nothing matches before the
    next line. *)
Lemma skip_to_end :
  forall (l : string) (fuel : nat),
    string_forallb (fun c => negb (is_newline c)) l = true ->
    findall_aux fuel false l = [].
Proof.
  induction l as [|c l IH]; intros fuel Hl.
  - destruct fuel; reflexivity.
  - simpl in Hl. apply andb_true_iff in Hl as [Hc Hl].
    destruct fuel as [|fuel]; [reflexivity|].
    cbn [findall_aux]. apply negb_true_iff in Hc. rewrite Hc.
    now apply IH.
Qed.

Lemma findall_blank_led_last (line : string) :
  blank_led line = true -> findall line = [].
Proof.
  unfold blank_led. intros H. apply andb_true_iff in H as [Hline Hblank].
  destruct line as [|c l]; [reflexivity|].
  simpl in Hline. apply andb_true_iff in Hline as [Hc Hl].
  unfold findall. cbn [findall_aux].
  rewrite (span_blank_first c _ Hblank).
  apply negb_true_iff in Hc. rewrite Hc. now apply skip_to_end.
Qed.

Lemma findall_line_last (r : string * string) :
  wf_rev r = true -> findall (log_line r) = [r].
Proof.
  intros Hr. apply (findall_render_log [r]). simpl. now rewrite Hr.
Qed.

(** X14. In an output made of lines that name a revision (hash, blank,
    subject) and of lines that are empty or start with a blank, the
    latter are dropped wherever they stand, first, last or in between:
    the result is the revisions of the other lines, in order. *)
Theorem blank_led_lines_are_dropped
    (lines : list ((string * string) + string)) :
  forallb revision_or_blank_led lines = true ->
  findall (join nl (map render_line lines)) = revisions_of lines.
Proof.
  induction lines as [|x ls IH]; intros Hls; [reflexivity|].
  simpl in Hls. apply andb_true_iff in Hls as [Hx Hls].
  destruct ls as [|y ls'].
  - destruct x as [r | text]; simpl in Hx |- *.
    + now apply findall_line_last.
    + now apply findall_blank_led_last.
  - change (join nl (map render_line (x :: y :: ls')))
      with (render_line x +++ nl +++ join nl (map render_line (y :: ls'))).
    specialize (IH Hls).
    destruct x as [r | text]; simpl in Hx; cbn [render_line].
    + rewrite (findall_line_then r _ Hx), IH. reflexivity.
    + rewrite (findall_blank_led_then text _ Hx), IH. reflexivity.
Qed.

Lemma blank_led_lines_are_dropped_witness :
  findall ("c3c3c3 net: newest change" +++ nl
           +++ nl
           +++ "    indented note" +++ nl
           +++ "a1a1a1 eal: oldest change" +++ nl
           +++ " ")
  = [("c3c3c3", "net: newest change"); ("a1a1a1", "eal: oldest change")].
Proof.
  apply (blank_led_lines_are_dropped
           [ inl ("c3c3c3", "net: newest change"); inr EmptyString;
             inr "    indented note"; inl ("a1a1a1", "eal: oldest change");
             inr " " ]).
  reflexivity.
Defined.

(** A line without a blank is neither kind of line: the [\s] of the
    pattern takes its newline, so it takes the next line as its subject,
    or an empty subject when the next line is empty. *)
Example blank_line_after_a_bare_word :
  findall ("abc" +++ nl +++ nl +++ "xyz s") = [("abc", EmptyString); ("xyz", "s")]
  /\ findall ("abc" +++ nl +++ "xyz s") = [("abc", "xyz s")].
Proof. split; reflexivity. Qed.

(** ** The policy only matters when a check fails *)

Section Policy.
Context {os : OS}.
Variable opts : options.
Variable b : bool.

(** [m'] does what [m] does wherever [m] meets no failed check. *)
Let agree {A} (m m' : M os A) : Prop :=
  forall w, quiet failed_check (m w) -> m' w = m w.

Lemma agree_refl {A} (m : M os A) : agree m m.
Proof. intros w _. reflexivity. Qed.

Lemma agree_bind {A B} (m m' : M os A) (f f' : A -> M os B) :
  agree m m' -> (forall a, agree (f a) (f' a)) ->
  agree (bind m f) (bind m' f').
Proof.
  intros Hm Hf w. unfold quiet. rewrite trace_bind, forallb_app.
  intros H. apply andb_true_iff in H as [H1 H2].
  unfold bind. rewrite (Hm w H1).
  destruct (m w) as [t w1 [e | a]]; [reflexivity|].
  simpl in H2. now rewrite (Hf a w1 H2).
Qed.

Ltac agree_stage :=
  intros w; unfold quiet; unfold_stage; cbn [exit_on_err with_exit_on_err];
  destruct b; destruct (exit_on_err opts) eqn:Hpol;
  split_answers; intros Hq;
  first [ reflexivity
        | exfalso; revert Hq; evaluate; discriminate ].

Lemma check_git_log_agree :
  agree (check_git_log opts) (check_git_log (with_exit_on_err b opts)).
Proof. agree_stage. Qed.

Lemma run_test_build_agree (bt arch : string) (n : pyval) :
  agree (run_test_build opts bt arch n)
        (run_test_build (with_exit_on_err b opts) bt arch n).
Proof. destruct n; agree_stage. Qed.

Lemma check_patch_agree :
  agree (check_patch opts) (check_patch (with_exit_on_err b opts)).
Proof. agree_stage. Qed.

Lemma check_builds_agree (bt : string) (n : pyval) (eoe eoe' : bool) :
  forall compilers,
    agree (check_builds opts compilers bt n eoe)
          (check_builds (with_exit_on_err b opts) compilers bt n eoe').
Proof.
  induction compilers as [|c cs IH]; cbn [check_builds].
  - apply agree_refl.
  - apply agree_bind; [apply run_test_build_agree|]. intros _.
    apply agree_bind; [apply run_test_build_agree|]. intros _. apply IH.
Qed.

Lemma main_loop_agree (compilers : list string) :
  forall cs i,
    agree (main_loop opts compilers i cs)
          (main_loop (with_exit_on_err b opts) compilers i cs).
Proof.
  induction cs as [|c cs IH]; intros i; cbn [main_loop].
  - apply agree_refl.
  - cbn [run_checkgitlog build_type num_jobs exit_on_err run_checkpatch
         with_exit_on_err].
    apply agree_bind; [apply agree_refl|]. intros _.
    apply agree_bind; [apply agree_refl|]. intros _.
    apply agree_bind; [apply agree_refl|]. intros _.
    apply agree_bind.
    { destruct (String.eqb (run_checkgitlog opts) "yes");
        [apply check_git_log_agree | apply agree_refl]. }
    intros _. apply agree_bind.
    { destruct (negb (String.eqb (build_type opts) "skip"));
        [apply check_builds_agree | apply agree_refl]. }
    intros _. apply agree_bind.
    { destruct (String.eqb (run_checkpatch opts) "yes");
        [apply check_patch_agree | apply agree_refl]. }
    intros _. apply IH.
Qed.

Lemma main_agree (args : list string) :
  agree (main opts args) (main (with_exit_on_err b opts) args).
Proof.
  unfold main. destruct args as [|s [|e rest]]; try apply agree_refl.
  apply agree_bind; [apply agree_refl|]. intros _.
  apply agree_bind; [apply agree_refl|]. intros cs.
  apply main_loop_agree.
Qed.
End Policy.

(** X16. The exit-on-error policy only matters when a check fails: a
    run whose checks all pass (or that ends for another reason) does and
    returns exactly the same with and without [-e]. *)
Theorem policy_only_matters_on_failure {os : OS} (opts : options) (b : bool)
    (args : list string) (w : world os) :
  forallb (fun e => negb (failed_check e)) (trace (main opts args w)) = true ->
  main (with_exit_on_err b opts) args w = main opts args w.
Proof. intros Hq. now apply main_agree. Qed.

Lemma policy_only_matters_on_failure_witness :
  main (os := repo_os []) (with_exit_on_err true jobs4_opts) range_args 0%nat
  = main (os := repo_os []) jobs4_opts range_args 0%nat.
Proof.
  apply (policy_only_matters_on_failure (os := repo_os []) jobs4_opts true).
  vm_compute. reflexivity.
Defined.

(** ** The order of the commands *)

Lemma exec_app {St : Type} (step : St -> event -> option St) (t1 t2 : list event) :
  forall st,
    exec step st (t1 ++ t2)
    = match exec step st t1 with
      | Some st' => exec step st' t2
      | None => None
      end.
Proof.
  induction t1 as [|e t1 IH]; intros st; [reflexivity|].
  simpl. destruct (step st e); [apply IH | reflexivity].
Qed.

Ltac obeys_stage :=
  let ph := fresh "ph" in
  let Hph := fresh "Hph" in
  intros ph Hph; destruct ph; try discriminate Hph; clear Hph;
  unfold_stage; split_answers; evaluate; first [exact I | reflexivity].

Section Protocol.
Context {os : OS}.
Variable opts : options.

Lemma obeys_bind {A B} (pre mid post : phase -> bool)
    (m : M os A) (f : A -> M os B) (w : world os) :
  obeys pre mid (m w) ->
  (forall a w', obeys mid post (f a w')) ->
  obeys pre post (bind m f w).
Proof.
  intros Hm Hf ph Hph. rewrite trace_bind, result_bind, exec_app.
  specialize (Hm ph Hph).
  destruct (exec phase_step ph (trace (m w))) as [ph'|]; [|contradiction].
  destruct (result (m w)) as [x | a]; [exact I|].
  exact (Hf a _ ph' Hm).
Qed.

Lemma obeys_weaken {A} (pre pre' post post' : phase -> bool)
    (o : outcome (world os) A) :
  (forall ph, pre' ph = true -> pre ph = true) ->
  (forall ph, post ph = true -> post' ph = true) ->
  obeys pre post o -> obeys pre' post' o.
Proof.
  intros Hpre Hpost H ph Hph. specialize (H ph (Hpre ph Hph)).
  destruct (exec phase_step ph (trace o)); [|contradiction].
  destruct (result o); [exact I | now apply Hpost].
Qed.

Lemma obeys_ret {A} (inv : phase -> bool) (a : A) (w : world os) :
  obeys inv inv (ret a w).
Proof. intros ph Hph. exact Hph. Qed.

Lemma obeys_write (inv : phase -> bool) (s : string) (w : world os) :
  obeys inv inv (stdout_write s w).
Proof. intros ph Hph. exact Hph. Qed.

Lemma enter_repo_dir_obeys (w : world os) :
  obeys (is_phase Idle) (is_phase Idle) (enter_repo_dir opts w).
Proof.
  unfold enter_repo_dir. destruct (String.eqb (repo_dir opts) EmptyString);
    obeys_stage.
Qed.

Lemma get_commit_list_obeys (s e : string) (w : world os) :
  obeys (is_phase Idle) (is_phase Resolved) (get_commit_list s e w).
Proof. obeys_stage. Qed.

Lemma checkout_obeys (h : string) (w : world os) :
  obeys between_revisions (is_phase CheckedOut)
    (checkout_commit_with_hash h w).
Proof. obeys_stage. Qed.

Lemma check_git_log_obeys (w : world os) :
  obeys (is_phase CheckedOut) (is_phase MessageChecked) (check_git_log opts w).
Proof. destruct (exit_on_err opts) eqn:Hpol; obeys_stage. Qed.

Lemma run_test_build_obeys (bt arch : string) (n : pyval) (w : world os) :
  obeys in_revision (is_phase Building) (run_test_build opts bt arch n w).
Proof. destruct (exit_on_err opts) eqn:Hpol; destruct n; obeys_stage. Qed.

Lemma check_patch_obeys (w : world os) :
  obeys in_revision (is_phase PatchDone) (check_patch opts w).
Proof. destruct (exit_on_err opts) eqn:Hpol; obeys_stage. Qed.

Lemma check_builds_obeys (bt : string) (n : pyval) (eoe : bool) :
  forall compilers (w : world os),
    obeys in_revision in_revision (check_builds opts compilers bt n eoe w).
Proof.
  assert (Hbuild : forall arch (w : world os),
             obeys in_revision in_revision (run_test_build opts bt arch n w)).
  { intros arch w.
    apply (obeys_weaken in_revision _ (is_phase Building) _);
      [auto | now intros [] | apply run_test_build_obeys]. }
  induction compilers as [|c cs IH]; intros w; cbn [check_builds].
  - apply obeys_ret.
  - apply (obeys_bind _ in_revision); [apply Hbuild|]. intros _ w1.
    apply (obeys_bind _ in_revision); [apply Hbuild|]. intros _ w2.
    apply IH.
Qed.

Lemma main_loop_obeys (compilers : list string) :
  forall cs i (w : world os),
    obeys between_revisions between_revisions
      (main_loop opts compilers i cs w).
Proof.
  induction cs as [|c cs IH]; intros i w; cbn [main_loop].
  - apply obeys_ret.
  - apply (obeys_bind _ between_revisions).
    { destruct (0 <? i)%nat; [apply obeys_write | apply obeys_ret]. }
    intros _ w1. apply (obeys_bind _ between_revisions); [apply obeys_write|].
    intros _ w2. apply (obeys_bind _ (is_phase CheckedOut));
      [apply checkout_obeys|].
    intros _ w3. apply (obeys_bind _ in_revision).
    { destruct (String.eqb (run_checkgitlog opts) "yes").
      - apply (obeys_weaken (is_phase CheckedOut) _ (is_phase MessageChecked) _);
          [auto | now intros [] | apply check_git_log_obeys].
      - apply (obeys_weaken in_revision _ in_revision _);
          [now intros [] | auto | apply obeys_ret]. }
    intros _ w4. apply (obeys_bind _ in_revision).
    { destruct (negb (String.eqb (build_type opts) "skip"));
        [apply check_builds_obeys | apply obeys_ret]. }
    intros _ w5. apply (obeys_bind _ between_revisions).
    { destruct (String.eqb (run_checkpatch opts) "yes").
      - apply (obeys_weaken in_revision _ (is_phase PatchDone) _);
          [auto | now intros [] | apply check_patch_obeys].
      - apply (obeys_weaken between_revisions _ between_revisions _);
          [now intros [] | auto | apply obeys_ret]. }
    intros _ w6. apply IH.
Qed.

Lemma main_obeys (args : list string) (w : world os) :
  obeys (is_phase Idle) between_revisions (main opts args w).
Proof.
  unfold main. destruct args as [|s [|e rest]].
  - intros ph Hph. exact I.
  - intros ph Hph. exact I.
  - apply (obeys_bind _ (is_phase Idle)); [apply enter_repo_dir_obeys|].
    intros _ w1. apply (obeys_bind _ (is_phase Resolved));
      [apply get_commit_list_obeys|].
    intros cs w2.
    apply (obeys_weaken between_revisions _ between_revisions _);
      [now intros [] | auto | apply main_loop_obeys].
Qed.
End Protocol.

(** X17. In every run the commands follow the fixed order of the
    stages: [git log] first and once; then, for each revision, its
    checkout, the message check right after it, the builds, the patch
    generation and, only after a generated patch, the checker.  Nothing
    runs after a failed [git log] or [git checkout], nor after a command
    that could not be launched.  A run that returns has completed the
    stages it started. *)
Theorem commands_follow_the_stage_order {os : OS} (opts : options)
    (args : list string) (w : world os) :
  exists ph,
    exec phase_step Idle (trace (main opts args w)) = Some ph
    /\ (result (main opts args w) = inr tt -> between_revisions ph = true).
Proof.
  pose proof (main_obeys opts args w Idle eq_refl) as H.
  destruct (exec phase_step Idle (trace (main opts args w))) as [ph|];
    [|contradiction].
  exists ph. split; [reflexivity|].
  intros Hret. now rewrite Hret in H.
Qed.

(** ** Scratch directories *)

Ltac tidy_stage :=
  intros; unfold tidy; unfold_stage; split_answers; evaluate;
  rewrite ?String.eqb_refl; reflexivity.

Section Scratch.
Context {os : OS}.
Variable opts : options.

Lemma tidy_bind {A B} (m : M os A) (f : A -> M os B) (w : world os) :
  tidy (m w) -> (forall a w', tidy (f a w')) -> tidy (bind m f w).
Proof.
  unfold tidy. intros Hm Hf. rewrite trace_bind, exec_app, Hm.
  destruct (result (m w)); [reflexivity | apply Hf].
Qed.

Lemma enter_repo_dir_tidy (w : world os) : tidy (enter_repo_dir opts w).
Proof.
  unfold enter_repo_dir. destruct (String.eqb (repo_dir opts) EmptyString);
    tidy_stage.
Qed.

Lemma get_commit_list_tidy (s e : string) (w : world os) :
  tidy (get_commit_list s e w).
Proof. tidy_stage. Qed.

Lemma checkout_tidy (h : string) (w : world os) :
  tidy (checkout_commit_with_hash h w).
Proof. tidy_stage. Qed.

Lemma check_git_log_tidy (w : world os) : tidy (check_git_log opts w).
Proof. destruct (exit_on_err opts) eqn:Hpol; tidy_stage. Qed.

Lemma run_test_build_tidy (bt arch : string) (n : pyval) (w : world os) :
  tidy (run_test_build opts bt arch n w).
Proof. destruct (exit_on_err opts) eqn:Hpol; destruct n; tidy_stage. Qed.

Lemma check_patch_tidy (w : world os) : tidy (check_patch opts w).
Proof. destruct (exit_on_err opts) eqn:Hpol; tidy_stage. Qed.
End Scratch.

(** X18. Every run, however it ends, keeps its scratch directories
    tidy: a directory is created only when none is in use, only the two
    commands of the patch-style check run while one is in use, with
    [git format-patch] writing into it, and [rmtree] has been called on
    it before any other command, any other directory or the end of the
    run. *)
Theorem scratch_directories_never_outlive_their_stage {os : OS}
    (opts : options) (args : list string) (w : world os) :
  exec scratch_step None (trace (main opts args w)) = Some None.
Proof.
  apply (main_seq opts (fun A o => tidy o)).
  - reflexivity.
  - reflexivity.
  - reflexivity.
  - intros; now apply tidy_bind.
  - intros; apply checkout_tidy.
  - intros; apply check_git_log_tidy.
  - apply (build_stage_seq opts (fun A o => tidy o)).
    + reflexivity.
    + intros; now apply tidy_bind.
    + intros; apply run_test_build_tidy.
  - intros; apply check_patch_tidy.
  - intros; apply enter_repo_dir_tidy.
  - intros; apply get_commit_list_tidy.
Qed.

(** ** The build stage for any list of compilers *)

(** X19. For any list of compilers, any build type and any job count
    given as a string, a build stage that nothing stops returns normally
    after launching, for each compiler in the order of the list, the
    build of its default target and then the build of its shared
    target. *)
Theorem build_stage_builds_each_compiler_twice {os : OS} (opts : options)
    (compilers : list string) (build_type j : string) (eoe : bool)
    (w : world os) :
  forallb (fun e => negb (stopping opts e))
    (trace (check_builds opts compilers build_type (PyStr j) eoe w)) = true ->
  result (check_builds opts compilers build_type (PyStr j) eoe w) = inr tt
  /\ spawned (trace (check_builds opts compilers build_type (PyStr j) eoe w))
     = flat_map
         (fun compiler =>
            [ test_build_cmd build_type ("x86_64-native-linuxapp-" +++ compiler)
                ("-j" +++ j);
              test_build_cmd build_type
                (("x86_64-native-linuxapp-" +++ compiler) +++ "+shared")
                ("-j" +++ j) ])
         compilers.
Proof.
  intros Hns.
  destruct (check_builds_spawned opts build_type j eoe compilers w Hns)
    as ([[] Hres] & Hsp).
  split; [exact Hres | exact Hsp].
Qed.

Lemma build_stage_builds_each_compiler_twice_witness :
  spawned (trace (check_builds (os := repo_os []) jobs4_opts ["gcc"] "short"
                    (PyStr "4") false 0%nat))
  = [ ["devtools/test-build.sh"; "-j4"; "-s"; "x86_64-native-linuxapp-gcc"];
      ["devtools/test-build.sh"; "-j4"; "-s";
       "x86_64-native-linuxapp-gcc+shared"] ].
Proof.
  destruct (build_stage_builds_each_compiler_twice (os := repo_os [])
              jobs4_opts ["gcc"] "short" "4" false 0%nat) as [_ Hsp].
  - vm_compute. reflexivity.
  - rewrite Hsp. reflexivity.
Defined.

(** The automata do reject traces: a check before any checkout, a
    checker without a generated patch, a checkout while a scratch
    directory is in use. *)
Example phase_step_rejects_unordered_commands :
  exec phase_step Resolved [Spawned check_git_log_cmd (Completed 0 "fine")]
  = None
  /\ exec phase_step CheckedOut
       [Spawned (check_patch_cmd "0001.patch") (Completed 0 "fine")]
     = None
  /\ exec phase_step Dead [Spawned (checkout_cmd "a1a1a1") (Completed 0 "fine")]
     = None.
Proof. repeat split. Qed.

Example scratch_step_rejects_leftovers :
  exec scratch_step None
    [Mkdtemp (inr "/tmp/tmpXYZ");
     Spawned (checkout_cmd "a1a1a1") (Completed 0 "fine")]
  = None
  /\ exec scratch_step None [Mkdtemp (inr "/tmp/tmpXYZ")]
     = Some (Some "/tmp/tmpXYZ").
Proof. repeat split. Qed.

(** ** What exit status 0 certifies *)

Ltac try_stop_any pre l :=
  lazymatch l with
  | ?e :: ?post =>
      first [ solve [ exists pre, e, post;
                      split; [reflexivity|];
                      split; [unfold stopping; evaluate; reflexivity|];
                      split; [unfold stopping; evaluate; reflexivity|];
                      split; [exact I | reflexivity] ]
            | try_stop_any constr:(pre ++ [e]) post ]
  end.

Ltac stopping_stage :=
  intros; unfold_stage; split_answers; use_answers; project;
  unfold halted_by; project;
  first [ left; unfold stopping; evaluate; reflexivity
        | right;
          lazymatch goal with
          | |- exists pre e post, ?t = _ /\ _ => try_stop_any (@nil event) t
          end ].

Section Certificate.
Context {os : OS}.
Variable opts : options.

Lemma enter_repo_dir_halts (w : world os) :
  halted_by (stopping opts) anything (enter_repo_dir opts w).
Proof.
  unfold enter_repo_dir. destruct (String.eqb (repo_dir opts) EmptyString);
    destruct (exit_on_err opts) eqn:Hpol; stopping_stage.
Qed.

Lemma get_commit_list_halts (s e : string) (w : world os) :
  halted_by (stopping opts) anything (get_commit_list s e w).
Proof. destruct (exit_on_err opts) eqn:Hpol; stopping_stage. Qed.

Lemma checkout_halts (h : string) (w : world os) :
  halted_by (stopping opts) anything (checkout_commit_with_hash h w).
Proof. destruct (exit_on_err opts) eqn:Hpol; stopping_stage. Qed.

Lemma check_git_log_halts (w : world os) :
  halted_by (stopping opts) anything (check_git_log opts w).
Proof. destruct (exit_on_err opts) eqn:Hpol; stopping_stage. Qed.

Lemma run_test_build_halts (bt arch : string) (n : pyval) (w : world os) :
  halted_by (stopping opts) anything (run_test_build opts bt arch n w).
Proof. destruct (exit_on_err opts) eqn:Hpol; destruct n; stopping_stage. Qed.

Lemma check_patch_halts (w : world os) :
  halted_by (stopping opts) anything (check_patch opts w).
Proof. destruct (exit_on_err opts) eqn:Hpol; stopping_stage. Qed.

(** A stopping event ends the run with status 1. *)
Lemma main_halts (args : list string) (w : world os) :
  halted_by (stopping opts) anything (main opts args w).
Proof.
  apply (main_seq opts (fun A o => halted_by (stopping opts) anything o)).
  - intros; now left.
  - intros; now left.
  - intros; left; simpl; unfold stopping; simpl; now rewrite andb_false_r.
  - intros; now apply halted_by_bind.
  - intros; apply checkout_halts.
  - intros; apply check_git_log_halts.
  - apply (build_stage_seq opts
             (fun A o => halted_by (stopping opts) anything o)).
    + intros; now left.
    + intros; now apply halted_by_bind.
    + intros; apply run_test_build_halts.
  - intros; apply check_patch_halts.
  - intros; apply enter_repo_dir_halts.
  - intros; apply get_commit_list_halts.
Qed.

Lemma no_stopping_no_failed_check (t : list event) :
  exit_on_err opts = true ->
  forallb (fun e => negb (stopping opts e)) t = true ->
  forallb (fun e => negb (failed_check e)) t = true.
Proof.
  intros Hpol. induction t as [|e t IH]; [reflexivity|].
  simpl. unfold stopping at 1. rewrite Hpol. simpl.
  intros H. apply andb_true_iff in H as [He H].
  rewrite (IH H). apply negb_true_iff in He.
  apply orb_false_iff in He as [_ He]. now rewrite He.
Qed.
End Certificate.

(** X20. Exit status 0 certifies a full run.  When the process ends with
    status 0 (and the build commands could be put together), every
    revision of the resolved list was checked out, in order, every stage
    that is switched on ran for every revision, and, under
    exit-on-error, no check failed. *)
Theorem status_0_certifies_a_full_run {os : OS} (opts : options)
    (start_ref end_ref : string) (rest : list string) (w : world os)
    (commits : list (string * string)) :
  jobs_usable opts ->
  result (get_commit_list start_ref end_ref (after (enter_repo_dir opts w)))
  = inr commits ->
  exit_status (result (main opts (start_ref :: end_ref :: rest) w)) = 0%Z ->
  checkouts (trace (main opts (start_ref :: end_ref :: rest) w))
  = map fst commits
  /\ (run_checkgitlog opts = "yes" ->
      count_program "devtools/check-git-log.sh"
        (trace (main opts (start_ref :: end_ref :: rest) w))
      = List.length commits)
  /\ (build_type opts <> "skip" ->
      count_program "devtools/test-build.sh"
        (trace (main opts (start_ref :: end_ref :: rest) w))
      = (List.length commits * (2 * List.length (compilers_of opts)))%nat)
  /\ (run_checkpatch opts = "yes" ->
      count_program "git format-patch"
        (trace (main opts (start_ref :: end_ref :: rest) w))
      = List.length commits)
  /\ (exit_on_err opts = true ->
      forallb (fun e => negb (failed_check e))
        (trace (main opts (start_ref :: end_ref :: rest) w)) = true).
Proof.
  intros Hjobs Hlog Hexit.
  set (o := main opts (start_ref :: end_ref :: rest) w) in *.
  assert (Hns : forallb (fun e => negb (stopping opts e)) (trace o) = true).
  { destruct (main_halts opts (start_ref :: end_ref :: rest) w)
      as [Hq | (pre & e & post & _ & _ & _ & _ & Hone)]; [exact Hq|].
    fold o in Hone. rewrite Hexit in Hone. discriminate. }
  assert (Hrun : forall p,
             String.eqb p "devtools/checkpatches.sh" = false ->
             count_program p (trace o)
             = (indicator (String.eqb p "git log")
                + List.length commits * per_commit opts p)%nat
             /\ checkouts (trace o) = map fst commits).
  { intros p Hp.
    destruct (main_runs opts p start_ref end_ref rest w commits Hjobs Hp
                Hlog Hns) as (_ & Hn & Hhs). auto. }
  split; [exact (proj2 (Hrun "git checkout" eq_refl))|].
  split.
  { intros Hyes.
    destruct (Hrun "devtools/check-git-log.sh" eq_refl) as (Hn & _).
    rewrite Hn. unfold per_commit. rewrite Hyes. simpl.
    destruct (negb (String.eqb (build_type opts) "skip"));
      destruct (String.eqb (run_checkpatch opts) "yes"); simpl; lia. }
  split.
  { intros Hbuild.
    destruct (Hrun "devtools/test-build.sh" eq_refl) as (Hn & _).
    rewrite Hn. unfold per_commit.
    apply String.eqb_neq in Hbuild. rewrite Hbuild. simpl.
    destruct (String.eqb (run_checkgitlog opts) "yes");
      destruct (String.eqb (run_checkpatch opts) "yes"); simpl; lia. }
  split.
  { intros Hyes.
    destruct (Hrun "git format-patch" eq_refl) as (Hn & _).
    rewrite Hn. unfold per_commit. rewrite Hyes. simpl.
    destruct (negb (String.eqb (build_type opts) "skip"));
      destruct (String.eqb (run_checkgitlog opts) "yes"); simpl; lia. }
  intros Hpol. now apply (no_stopping_no_failed_check opts).
Qed.

Lemma status_0_certifies_a_full_run_witness :
  checkouts (trace (main (os := repo_os []) strict_opts ["v1"; "v2"] 0%nat))
  = ["a1a1a1"; "b2b2b2"; "c3c3c3"]
  /\ count_program "devtools/test-build.sh"
       (trace (main (os := repo_os []) strict_opts ["v1"; "v2"] 0%nat))
     = 6%nat.
Proof.
  destruct (status_0_certifies_a_full_run (os := repo_os []) strict_opts
              "v1" "v2" [] 0%nat (rev three_commits))
    as (Hhs & _ & Hbuilds & _ & _).
  - left. exists "4". reflexivity.
  - vm_compute. reflexivity.
  - vm_compute. reflexivity.
  - split; [exact Hhs | apply Hbuilds; discriminate].
Defined.

(** ** The policy argument of [check_builds] *)

(** X21. The argument [exit_on_err] of [check_builds] is never read:
    whatever is passed, the stage does the same, the policy being the one
    of the global options. *)
Theorem check_builds_ignores_its_policy_argument {os : OS} (opts : options)
    (compilers : list string) (build_type : string) (n : pyval)
    (eoe eoe' : bool) (w : world os) :
  check_builds opts compilers build_type n eoe w
  = check_builds opts compilers build_type n eoe' w.
Proof.
  revert w. induction compilers as [|c cs IH]; intros w; [reflexivity|].
  cbn [check_builds]. unfold bind.
  destruct (run_test_build opts build_type (arch_of c) n w)
    as [t1 w1 [x | a]]; [reflexivity|].
  destruct (run_test_build opts build_type (arch_of c +++ "+shared") n w1)
    as [t2 w2 [x | a']]; [reflexivity|].
  now rewrite IH.
Qed.

(** For instance, passing [True] does not stop a stage whose builds fail
    when the options say to go on. *)
Example check_builds_goes_on_despite_its_argument :
  result (check_builds (os := build_failure_os) jobs4_opts ["gcc"] "full"
            (PyStr "4") true 0%nat) = inr tt
  /\ List.length
       (filter failed_check
          (trace (check_builds (os := build_failure_os) jobs4_opts ["gcc"]
                    "full" (PyStr "4") true 0%nat)))
     = 2%nat.
Proof. split; vm_compute; reflexivity. Qed.

(** ** Runs with the integer job count *)

Section IntegerJobs.
Context {os : OS}.
Variable opts : options.
Variable n : Z.
Hypothesis default_jobs : num_jobs opts = PyInt n.

Lemma bind_raised {A B} (m : M os A) (f : A -> M os B) (w w' : world os)
    (t : list event) (e : exn) :
  m w = Outcome t w' (inl e) -> bind m f w = Outcome t w' (inl e).
Proof. intros H. unfold bind. now rewrite H. Qed.

(** With the integer job count a build stage with a compiler raises
    before it launches anything. *)
Lemma check_builds_integer (compilers : list string) (bt : string)
    (eoe : bool) (w : world os) :
  compilers <> [] ->
  check_builds opts compilers bt (PyInt n) eoe w
  = Outcome [] w (inl str_int_error).
Proof.
  intros Hne. destruct compilers as [|c cs]; [contradiction|]. reflexivity.
Qed.

Lemma check_builds_integer_quiet (compilers : list string) (bt : string)
    (eoe : bool) (w : world os) :
  quiet is_build_event (check_builds opts compilers bt (PyInt n) eoe w).
Proof. destruct compilers; reflexivity. Qed.

(** So no run launches a build. *)
Lemma integer_jobs_no_build (args : list string) (w : world os) :
  quiet is_build_event (main opts args w).
Proof.
  apply (main_seq_at opts (fun A o => quiet is_build_event o)).
  - reflexivity.
  - reflexivity.
  - reflexivity.
  - intros; now apply quiet_bind.
  - intros; apply checkout_no_build.
  - intros; apply check_git_log_no_build.
  - intros _ w'. rewrite default_jobs. apply check_builds_integer_quiet.
  - intros; apply check_patch_no_build.
  - intros; apply enter_repo_dir_no_build.
  - intros; apply get_commit_list_no_build.
Qed.

(** One step of a run that meets no stopping event. *)
Lemma runs_then {A B} (p : string) (k : nat) (hs : list string)
    (m : M os A) (f : A -> M os B) (w : world os) :
  runs_through opts p k hs (m w) ->
  forallb (fun e => negb (stopping opts e)) (trace (bind m f w)) = true ->
  exists a,
    result (m w) = inr a
    /\ trace (bind m f w) = trace (m w) ++ trace (f a (after (m w)))
    /\ result (bind m f w) = result (f a (after (m w)))
    /\ forallb (fun e => negb (stopping opts e))
         (trace (f a (after (m w)))) = true.
Proof.
  intros Hm. rewrite trace_bind, result_bind, forallb_app.
  intros H. apply andb_true_iff in H as [H1 H2].
  destruct (Hm H1) as ((a & Ha) & _). rewrite Ha in *.
  exists a. auto.
Qed.

(** The first revision of a run with the integer job count: its
    checkout and message check go through, its build stage raises. *)
Lemma main_loop_integer (compilers : list string) (c : string * string)
    (cs : list (string * string)) (w : world os) :
  build_type opts <> "skip" ->
  compilers <> [] ->
  forallb (fun e => negb (stopping opts e))
    (trace (main_loop opts compilers 0 (c :: cs) w)) = true ->
  result (main_loop opts compilers 0 (c :: cs) w) = inl str_int_error
  /\ checkouts (trace (main_loop opts compilers 0 (c :: cs) w)) = [fst c].
Proof.
  intros Hbuild Hcomp. apply String.eqb_neq in Hbuild.
  cbn [main_loop]. change (0 <? 0)%nat with false. cbv iota.
  rewrite Hbuild, default_jobs. cbn [negb].
  intros H0.
  destruct (runs_then "git checkout" _ _ _ _ w
              (runs_through_ret opts "git checkout" tt w) H0)
    as (a0 & _ & Ht0 & Hr0 & H1).
  rewrite Ht0, Hr0. clear Ht0 Hr0 H0. cbn [ret after trace app] in *.
  destruct (runs_then "git checkout" _ _ _ _ w
              (runs_through_write opts "git checkout" _ w) H1)
    as (a1 & _ & Ht1 & Hr1 & H2).
  rewrite Ht1, Hr1. clear Ht1 Hr1 H1.
  cbn [stdout_write after trace] in *.
  destruct (runs_then "git checkout" _ _ _ _ w
              (checkout_runs opts "git checkout" (fst c) w) H2)
    as (a2 & _ & Ht2 & Hr2 & H3).
  rewrite Ht2, Hr2. clear Ht2 Hr2 H2.
  set (w3 := after (checkout_commit_with_hash (fst c) w)) in *.
  assert (Hmsg : runs_through opts "git checkout" 0 []
                   ((if String.eqb (run_checkgitlog opts) "yes"
                     then check_git_log opts else ret tt) w3)).
  { destruct (String.eqb (run_checkgitlog opts) "yes");
      [apply (check_git_log_runs opts "git checkout")
      | apply runs_through_ret]. }
  destruct (runs_then "git checkout" _ _ _ _ w3 Hmsg H3)
    as (a3 & _ & Ht3 & Hr3 & H4).
  rewrite Ht3, Hr3. clear Ht3 Hr3 H3.
  set (m3 := if String.eqb (run_checkgitlog opts) "yes"
             then check_git_log opts else ret tt) in *.
  rewrite (bind_raised _ _ _ _ _ _
             (check_builds_integer compilers (build_type opts)
                (exit_on_err opts) (after (m3 w3)) Hcomp)).
  cbn [trace result]. split; [reflexivity|].
  rewrite !checkouts_app, app_nil_r.
  rewrite (checkout_checkouts (fst c) w).
  assert (Hm3 : checkouts (trace (m3 w3)) = []).
  { unfold m3. destruct (String.eqb (run_checkgitlog opts) "yes");
      [apply check_git_log_checkouts | reflexivity]. }
  rewrite Hm3. reflexivity.
Qed.
End IntegerJobs.

(** C3 (the code departs from it).  Without exit-on-error and without
    any fatal condition, a run with the integer job count of the
    defaults still does not go through its revisions: the build stage of
    the first revision raises [TypeError], the process ends with status
    1, only that revision was checked out and no build was launched. *)
Theorem default_job_count_ends_a_continuing_run {os : OS} (opts : options)
    (n : Z) (start_ref end_ref : string) (rest : list string) (w : world os)
    (c : string * string) (cs : list (string * string)) :
  exit_on_err opts = false ->
  num_jobs opts = PyInt n ->
  build_type opts <> "skip" ->
  compilers_of opts <> [] ->
  result (get_commit_list start_ref end_ref (after (enter_repo_dir opts w)))
  = inr (c :: cs) ->
  forallb (fun e => negb (fatal e))
    (trace (main opts (start_ref :: end_ref :: rest) w)) = true ->
  result (main opts (start_ref :: end_ref :: rest) w) = inl str_int_error
  /\ exit_status (result (main opts (start_ref :: end_ref :: rest) w)) = 1%Z
  /\ checkouts (trace (main opts (start_ref :: end_ref :: rest) w)) = [fst c]
  /\ count_program "devtools/test-build.sh"
       (trace (main opts (start_ref :: end_ref :: rest) w)) = 0%nat.
Proof.
  intros Hpol Hjobs Hbuild Hcomp Hlog Hfatal.
  assert (Hbuilds : count_program "devtools/test-build.sh"
                      (trace (main opts (start_ref :: end_ref :: rest) w))
                    = 0%nat).
  { apply no_build_count. exact (integer_jobs_no_build opts n Hjobs _ w). }
  rewrite <- (no_stopping_without_policy opts _ Hpol) in Hfatal.
  assert (Hrun : result (main opts (start_ref :: end_ref :: rest) w)
                 = inl str_int_error
                 /\ checkouts
                      (trace (main opts (start_ref :: end_ref :: rest) w))
                    = [fst c]).
  { revert Hfatal. unfold main. intros H0.
    destruct (runs_then opts "git checkout" _ _ _ _ w
                (enter_repo_dir_runs opts "git checkout" w) H0)
      as (a0 & _ & Ht0 & Hr0 & H1).
    rewrite Ht0, Hr0. clear Ht0 Hr0 H0.
    set (w1 := after (enter_repo_dir opts w)) in *.
    destruct (runs_then opts "git checkout" _ _ _ _ w1
                (get_commit_list_runs opts "git checkout" start_ref end_ref
                   w1) H1)
      as (a1 & Ha1 & Ht1 & Hr1 & H2).
    rewrite Ht1, Hr1. clear Ht1 Hr1 H1.
    rewrite Hlog in Ha1. inversion Ha1; subst a1.
    destruct (main_loop_integer opts n Hjobs (compilers_of opts) c cs _
                Hbuild Hcomp H2) as [Hres Hhs].
    split; [exact Hres|].
    rewrite !checkouts_app, Hhs.
    rewrite (enter_repo_dir_checkouts opts w).
    rewrite (get_commit_list_checkouts start_ref end_ref w1). reflexivity. }
  destruct Hrun as [Hres Hhs]. rewrite Hres.
  repeat split; assumption.
Qed.

Lemma default_job_count_ends_a_continuing_run_witness :
  exit_on_err (parse_args "/repo" []) = false
  /\ forallb (fun e => negb (fatal e))
       (trace (main (os := repo_os []) (parse_args "/repo" []) ["v1"; "v2"]
                 0%nat)) = true
  /\ exit_status
       (result (main (os := repo_os []) (parse_args "/repo" []) ["v1"; "v2"]
                  0%nat)) = 1%Z
  /\ checkouts
       (trace (main (os := repo_os []) (parse_args "/repo" []) ["v1"; "v2"]
                 0%nat)) = ["a1a1a1"].
Proof.
  assert (Hfatal : forallb (fun e => negb (fatal e))
                     (trace (main (os := repo_os []) (parse_args "/repo" [])
                               ["v1"; "v2"] 0%nat)) = true)
    by (vm_compute; reflexivity).
  destruct (default_job_count_ends_a_continuing_run (os := repo_os [])
              (parse_args "/repo" []) 1 "v1" "v2" [] 0%nat
              ("a1a1a1", "eal: oldest change")
              [("b2b2b2", "doc: middle change");
               ("c3c3c3", "net: newest change")])
    as (_ & Hexit & Hhs & _).
  - reflexivity.
  - reflexivity.
  - discriminate.
  - discriminate.
  - vm_compute. reflexivity.
  - exact Hfatal.
  - split; [reflexivity|]. split; [exact Hfatal|]. split; assumption.
Defined.

(** C4 (the code departs from it).  With gcc and clang enabled, build
    type [full] and the integer job count of the defaults, the build
    stage of a revision launches nothing and raises [TypeError], and no
    run launches any build: zero invocations where four are due. *)
Theorem default_job_count_issues_no_build {os : OS} (opts : options) (n : Z) :
  use_gcc opts = "yes" ->
  use_clang opts = "yes" ->
  build_type opts = "full" ->
  num_jobs opts = PyInt n ->
  (forall w : world os,
      check_builds opts (compilers_of opts) (build_type opts) (num_jobs opts)
        (exit_on_err opts) w
      = Outcome [] w (inl str_int_error))
  /\ (forall (args : list string) (w : world os),
         count_program "devtools/test-build.sh" (trace (main opts args w))
         = 0%nat).
Proof.
  intros Hgcc Hclang Hfull Hjobs. split.
  - intros w. rewrite Hjobs. apply check_builds_integer.
    unfold compilers_of. rewrite Hgcc, Hclang. discriminate.
  - intros args w. apply no_build_count.
    exact (integer_jobs_no_build opts n Hjobs args w).
Qed.

Lemma default_job_count_issues_no_build_witness :
  compilers_of default_jobs_opts = ["gcc"; "clang"]
  /\ checkouts (trace default_jobs_run) = ["a1a1a1"]
  /\ result default_jobs_run = inl str_int_error
  /\ count_program "devtools/test-build.sh" (trace default_jobs_run) = 0%nat.
Proof.
  destruct (default_job_count_issues_no_build (os := repo_os [])
              default_jobs_opts 1 eq_refl eq_refl eq_refl eq_refl)
    as [_ Hnone].
  split; [reflexivity|]. split; [vm_compute; reflexivity|].
  split; [vm_compute; reflexivity|].
  exact (Hnone range_args 0%nat).
Defined.
